(** * s3_explorer: scan, transfer and report passes over an S3 listing

    Shallow embedding of [s3_explorer.py].  Python [str] values are
    modelled as [string], the UTF-8 bytes of the text; [str.lower] is
    a parameter of the development, since it depends on the Unicode
    tables; Python [int] is [Z], the [defaultdict] of per-folder
    statistics an insertion-ordered association list keyed by
    [PurePath], and [pathlib] the CPython 3.11 [PurePosixPath]. *)

From Stdlib Require Import String Ascii List ZArith Lia Bool Arith DecimalString.
From Stdlib Require Import Sorting.Sorted Sorting.Permutation.
Import ListNotations.

Local Open Scope string_scope.
Local Open Scope Z_scope.

(** ** Python [str] operations used by the script *)

Module PyStr.

Definition sep : ascii := "/"%char.
Definition dot : ascii := "."%char.

(** [s.startswith(p)] *)
Definition startswith (s p : string) : bool := String.prefix p s.

(** [s.endswith(x)] *)
Definition endswith (s x : string) : bool :=
  let n := String.length s in
  let m := String.length x in
  (m <=? n)%nat && String.eqb (substring (n - m) m s) x.

(** [c.lower()] on one character: only ['A'..'Z'] change. *)
Definition lower_ascii (c : ascii) : ascii :=
  let n := nat_of_ascii c in
  if ((65 <=? n) && (n <=? 90))%nat then ascii_of_nat (n + 32) else c.

(** [s.lower()] on ASCII text. *)
Fixpoint ascii_lower (s : string) : string :=
  match s with
  | EmptyString => EmptyString
  | String c r => String (lower_ascii c) (ascii_lower r)
  end.

(** All bytes below 128: the string holds ASCII characters only. *)
Fixpoint is_ascii (s : string) : bool :=
  match s with
  | EmptyString => true
  | String c r => (nat_of_ascii c <? 128)%nat && is_ascii r
  end.

(** [s.split(c)] for a one-character separator: never the empty list. *)
Fixpoint split (c : ascii) (s : string) : list string :=
  match s with
  | EmptyString => [EmptyString]
  | String a r =>
      if Ascii.eqb a c then EmptyString :: split c r
      else match split c r with
           | [] => [String a EmptyString]
           | h :: t => String a h :: t
           end
  end.

(** [s.lstrip(c)] *)
Fixpoint lstrip (c : ascii) (s : string) : string :=
  match s with
  | EmptyString => EmptyString
  | String a r => if Ascii.eqb a c then lstrip c r else s
  end.

(** [sep.join(l)] *)
Fixpoint join (c : ascii) (l : list string) : string :=
  match l with
  | [] => EmptyString
  | [x] => x
  | x :: r => x ++ String c (join c r)
  end.

(** [s.rfind(c)]: index of the last occurrence, [None] for Python's -1. *)
Fixpoint rfind (c : ascii) (s : string) : option nat :=
  match s with
  | EmptyString => None
  | String a r =>
      match rfind c r with
      | Some i => Some (S i)
      | None => if Ascii.eqb a c then Some 0%nat else None
      end
  end.

(** [s[i:]] *)
Definition slice_from (i : nat) (s : string) : string :=
  substring i (String.length s - i) s.

(** [x in l] for a list of strings *)
Definition str_in (x : string) (l : list string) : bool :=
  existsb (String.eqb x) l.

End PyStr.

(** ** Python [float] rendering used by the report *)

Module PyFloat.

(** Nearest integer to [num / den], ties to the even one ([den > 0]). *)
Definition round_half_even (num den : Z) : Z :=
  let q := num / den in
  let r := num mod den in
  if 2 * r <? den then q
  else if den <? 2 * r then q + 1
  else if Z.even q then q else q + 1.

(** [m / 2**30] as a binary64: the quotient by a power of two is exact
    up to 53 significant bits and rounded to 53 bits beyond that.  The
    result is the numerator of that float over [2**30], for [m >= 0]. *)
Definition to_double (m : Z) : Z :=
  if m <? 2 ^ 53 then m
  else let k := Z.log2 m - 52 in round_half_even m (2 ^ k) * 2 ^ k.

Definition decimal (n : Z) : string :=
  NilZero.string_of_uint (N.to_uint (Z.to_N n)).

(** [f"{n / (1024**3):.2f}"]: the float is rendered with two decimals,
    correctly rounded, ties to even.  (From [2**1054] on Python raises
    [OverflowError] in the division; a listing of 64-bit sizes stays far
    below.) *)
Definition format_gb (n : Z) : string :=
  let h := round_half_even (to_double (Z.abs n) * 100) (2 ^ 30) in
  let sign := if n <? 0 then "-" else "" in
  let units := decimal (h / 100) in
  let tenths := decimal ((h / 10) mod 10) in
  let hundredths := decimal (h mod 10) in
  (sign ++ units ++ "." ++ tenths ++ hundredths)%string.

End PyFloat.

(** ** pathlib: [PurePosixPath] as in CPython 3.11 *)

Module pathlib.
Import PyStr.

(** A path object: [_root] and [_parts]; [_parts] starts with the root
    when there is one.  The drive is always empty for the POSIX flavour. *)
Record PurePath := mkPath { root : string; parts : list string }.

(** [_PosixFlavour.splitroot] *)
Definition splitroot (part : string) : string * string :=
  match part with
  | String a _ =>
      if Ascii.eqb a sep then
        let stripped_part := lstrip sep part in
        if (String.length part - String.length stripped_part =? 2)%nat
        then ("//", stripped_part)
        else ("/", stripped_part)
      else ("", part)
  | EmptyString => ("", part)
  end.

Definition keep_part (x : string) : bool :=
  negb (String.eqb x "") && negb (String.eqb x ".").

(** [_Flavour.parse_parts] on a single argument.  The source has two
    branches ([sep in rel] or not); [split] returns [[rel]] when there is
    no separator, so both are the same filter. *)
Definition parse_parts (part : string) : string * list string :=
  match part with
  | EmptyString => ("", [])
  | _ =>
      let (rt, rel) := splitroot part in
      let parsed := filter keep_part (split sep rel) in
      (rt, if String.eqb rt "" then parsed else rt :: parsed)
  end.

(** [Path(s)] *)
Definition Path (s : string) : PurePath :=
  let (rt, ps) := parse_parts s in mkPath rt ps.

(** [_format_parsed_parts] followed by [or '.'] of [__str__] *)
Definition str (p : PurePath) : string :=
  let s := if String.eqb (root p) "" then join sep (parts p)
           else root p ++ join sep (tl (parts p)) in
  if String.eqb s "" then "." else s.

(** [PurePath.name] *)
Definition name (p : PurePath) : string :=
  if (List.length (parts p) =? (if String.eqb (root p) "" then 0 else 1))%nat
  then "" else last (parts p) "".

(** [PurePath.suffix] *)
Definition suffix (p : PurePath) : string :=
  let nm := name p in
  match rfind dot nm with
  | Some i =>
      if ((0 <? i) && (i <? String.length nm - 1))%nat
      then slice_from i nm else ""
  | None => ""
  end.

(** [PurePath.parent] *)
Definition parent (p : PurePath) : PurePath :=
  if ((List.length (parts p) =? 1)%nat && negb (String.eqb (root p) ""))
  then p else mkPath (root p) (removelast (parts p)).

(** [join_parsed_parts] with empty drives, as used by [self / key] *)
Definition truediv (p : PurePath) (key : string) : PurePath :=
  let (root2, parts2) := parse_parts key in
  if String.eqb root2 "" then mkPath (root p) (parts p ++ parts2)
  else mkPath root2 parts2.

(** [__eq__] and [__hash__]: on [_cparts], which is [_parts] here. *)
Fixpoint parts_eqb (a b : list string) : bool :=
  match a, b with
  | [], [] => true
  | x :: a', y :: b' => String.eqb x y && parts_eqb a' b'
  | _, _ => false
  end.

Definition path_eqb (p q : PurePath) : bool := parts_eqb (parts p) (parts q).

(** [__lt__]: Python's list comparison of [_cparts]: the first differing
    component decides, a proper prefix is smaller. *)
Fixpoint parts_compare (a b : list string) : comparison :=
  match a, b with
  | [], [] => Eq
  | [], _ :: _ => Lt
  | _ :: _, [] => Gt
  | x :: a', y :: b' =>
      match String.compare x y with
      | Eq => parts_compare a' b'
      | c => c
      end
  end.

Definition path_ltb (p q : PurePath) : bool :=
  match parts_compare (parts p) (parts q) with Lt => true | _ => false end.

End pathlib.

Import PyStr PyFloat pathlib.

(** ** Facts about [str.lower] some properties rely on *)

Definition lower_idempotent (lower : string -> string) : Prop :=
  forall s, lower (lower s) = lower s.

(** A leading dot stays where it is and does not change what follows. *)
Definition lower_keeps_leading_dot (lower : string -> string) : Prop :=
  forall s, lower (String dot s) = String dot (lower s).

(** No character is lower-cased into a dot. *)
Definition lower_makes_no_dot (lower : string -> string) : Prop :=
  forall s, rfind dot s = None -> rfind dot (lower s) = None.

(** Nor does the first character become a dot. *)
Definition lower_makes_no_leading_dot (lower : string -> string) : Prop :=
  forall s, startswith s "." = false -> startswith (lower s) "." = false.

(** On ASCII text [str.lower] only changes [A-Z]. *)
Definition lower_on_ascii (lower : string -> string) : Prop :=
  forall s, is_ascii s = true -> lower s = ascii_lower s.

Section Script.

(** [str.lower], as the interpreter running the script provides it. *)
Variable lower : string -> string.

(** ** Command line, listing and accumulators *)

(** [args] as returned by [parser.parse_args()].  [--extensions] has
    [nargs="*"]: absent is [None], present with no value is [Some []]. *)
Record Args := mkArgs {
  arg_prefix : string;
  arg_extensions : option (list string);
  arg_details : bool;
  arg_quiet : bool;
  arg_download : bool;
  arg_dest : option string
}.

(** One element of [page["Contents"]]. *)
Record Obj := mkObj { Key : string; Size : Z }.

(** One listing page; the ["Contents"] key may be missing. *)
Record Page := mkPage { Contents : option (list Obj) }.

(** [page.get("Contents", [])] *)
Definition get_Contents (page : Page) : list Obj :=
  match Contents page with Some l => l | None => [] end.

(** Python truthiness of [None], strings and lists. *)
Definition truthy_str (o : option string) : bool :=
  match o with Some (String _ _) => true | _ => false end.

Definition truthy_list {A} (o : option (list A)) : bool :=
  match o with Some (_ :: _) => true | _ => false end.

(** Lines 25-28: [Some DEST_ROOT] when the check passes ([DEST_ROOT] is
    only bound in the first branch), [None] when the bare [raise] runs. *)
Definition check_usage (args : Args) : option (option PurePath) :=
  if arg_download args && truthy_str (arg_dest args) then
    Some (option_map Path (arg_dest args))
  else if arg_download args || truthy_str (arg_dest args) then None
  else Some None.

(** Lines 31-33 *)
Definition normalise_ext (ext : string) : string :=
  if startswith ext "." then lower ext else "." ++ lower ext.

Definition normalise_extensions (a : option (list string)) : option (list string) :=
  if truthy_list a then option_map (map normalise_ext) a else None.

(** Line 35 *)
Definition normalise_prefix (p : string) : string :=
  if endswith p "/" then p else p ++ "/".

(** The value of the [defaultdict] factory. *)
Record FolderStats := mkStats { files : Z; bytes : Z; ignored : Z }.

Definition zero_stats : FolderStats := mkStats 0 0 0.

(** The [defaultdict]: keys in insertion order, no key twice. *)
Definition StatsDict := list (PurePath * FolderStats).

(** [stats[k][field] op= ...]: the entry for [k] is created with the
    factory value when missing, then updated in place. *)
Fixpoint dict_update (f : FolderStats -> FolderStats) (k : PurePath)
  (d : StatsDict) : StatsDict :=
  match d with
  | [] => [(k, f zero_stats)]
  | (k', v) :: r =>
      if path_eqb k' k then (k', f v) :: r
      else (k', v) :: dict_update f k r
  end.

(** Reading [stats[k]] for a key already present. *)
Fixpoint dict_lookup (k : PurePath) (d : StatsDict) : option FolderStats :=
  match d with
  | [] => None
  | (k', v) :: r => if path_eqb k' k then Some v else dict_lookup k r
  end.

Definition add_files (n : Z) (v : FolderStats) : FolderStats :=
  mkStats (files v + n) (bytes v) (ignored v).
Definition add_bytes (n : Z) (v : FolderStats) : FolderStats :=
  mkStats (files v) (bytes v + n) (ignored v).
Definition add_ignored (n : Z) (v : FolderStats) : FolderStats :=
  mkStats (files v) (bytes v) (ignored v + n).

(** A [tqdm] bar: [update] returns at once when [disable] is set,
    [set_postfix] stores its value; the display itself is not modelled. *)
Record Tqdm := mkTqdm {
  disable : bool;
  total : option Z;
  n : Z;
  postfix : option Z
}.

Definition tqdm (total : option Z) (disable : bool) : Tqdm :=
  mkTqdm disable total 0 None.

Definition tqdm_update (k : Z) (bar : Tqdm) : Tqdm :=
  if disable bar then bar
  else mkTqdm (disable bar) (total bar) (n bar + k) (postfix bar).

Definition tqdm_set_postfix (v : Z) (bar : Tqdm) : Tqdm :=
  mkTqdm (disable bar) (total bar) (n bar) (Some v).

(** ** Scan pass (lines 48-83) *)

Record ScanState := mkScan {
  stats : StatsDict;
  total_files : Z;
  total_bytes : Z;
  total_ignored : Z;
  analyse_progression_bar : Tqdm
}.

Definition scan_init (quiet : bool) : ScanState :=
  mkScan [] 0 0 0 (tqdm None quiet).

(** Body of the inner loop, one listed object. *)
Definition scan_obj (extensions : option (list string)) (st : ScanState)
  (obj : Obj) : ScanState :=
  let key := Key obj in
  let size := Size obj in
  let folder := parent (Path key) in
  if endswith key "/" then st
  else if truthy_list extensions
          && negb (str_in (lower (suffix (Path key)))
                     (match extensions with Some l => l | None => [] end))
  then mkScan (dict_update (add_ignored 1) folder (stats st))
         (total_files st) (total_bytes st) (total_ignored st + 1)
         (analyse_progression_bar st)
  else mkScan (dict_update (add_bytes size) folder
                 (dict_update (add_files 1) folder (stats st)))
         (total_files st + 1) (total_bytes st + size) (total_ignored st)
         (tqdm_update 1 (analyse_progression_bar st)).

Definition scan_page (extensions : option (list string)) (st : ScanState)
  (page : Page) : ScanState :=
  fold_left (scan_obj extensions) (get_Contents page) st.

Definition scan_pass (extensions : option (list string)) (quiet : bool)
  (pages : list Page) : ScanState :=
  fold_left (scan_page extensions) pages (scan_init quiet).

(** ** Effects: the S3 client, the local file system and standard output *)

(** What the report prints, with the values as they are shown: counts
    in full, sizes in GiB with two decimals.  [LFolder] stands for the
    four [print] calls of one folder, [LTotal] for the four of the
    totals. *)
Inductive Line :=
| LHeader (prefix : string)
| LFolder (folder : string) (nfiles : Z) (size_gb : string) (nignored : Z)
| LBlank
| LTotal (nfiles : Z) (size_gb : string) (nignored : Z)
| LDownloaded (singular : bool) (nfiles : Z) (size_gb : string) (dest_root : string).

(** What the script does to the outside, in program order.  [EvMkdir]
    and [EvDownload] record the call, whether or not it succeeds. *)
Inductive Event :=
| EvClient
| EvPaginate (prefix : string)
| EvMkdir (path : string)
| EvDownload (key path : string)
| EvPrint (line : Line).

(** Exceptions, named after the place that raises them: [RuntimeError]
    is the bare [raise] of the usage check, [NameError] the use of
    [DEST_ROOT] when it was never bound, the others the failing call. *)
Inductive Exn :=
| RuntimeError
| MkdirError (path : string)
| DownloadError (key : string)
| ResolveError (path : string)
| NameError.

Inductive Res (A : Type) :=
| Ok (a : A)
| Raise (e : Exn).
Arguments Ok {A} a.
Arguments Raise {A} e.

Section Effects.

(** The state of the bucket and of the local disk, and the two calls
    that can fail: [None] stands for a raised exception. *)
Variable World : Type.
Variable mkdir : string -> World -> option World.
Variable download_file : string -> string -> World -> option World.

(** [path.resolve()] reads the disk and the working directory. *)
Variable resolve : PurePath -> World -> option PurePath.

Record IO := mkIO { world : World; trace : list Event }.

(** State and exception monad: an exception keeps the trace so far. *)
Definition M (A : Type) : Type := IO -> Res A * IO.

Definition ret {A} (a : A) : M A := fun io => (Ok a, io).

Definition bind {A B} (m : M A) (k : A -> M B) : M B :=
  fun io =>
    match m io with
    | (Ok a, io') => k a io'
    | (Raise e, io') => (Raise e, io')
    end.

Definition raise {A} (e : Exn) : M A := fun io => (Raise e, io).

Definition emit (e : Event) : M unit :=
  fun io => (Ok tt, mkIO (world io) (trace io ++ [e])%list).

Notation "x <- m ;; k" := (bind m (fun x => k))
  (at level 61, m at next level, right associativity).
Notation "m ;;; k" := (bind m (fun _ => k))
  (at level 61, right associativity).

(** [path.mkdir(parents=True, exist_ok=True)] *)
Definition do_mkdir (path : string) : M unit :=
  fun io =>
    let tr := (trace io ++ [EvMkdir path])%list in
    match mkdir path (world io) with
    | Some w => (Ok tt, mkIO w tr)
    | None => (Raise (MkdirError path), mkIO (world io) tr)
    end.

(** [s3.download_file(BUCKET, key, path)] *)
Definition do_download (key path : string) : M unit :=
  fun io =>
    let tr := (trace io ++ [EvDownload key path])%list in
    match download_file key path (world io) with
    | Some w => (Ok tt, mkIO w tr)
    | None => (Raise (DownloadError key), mkIO (world io) tr)
    end.

(** [path.resolve()] *)
Definition do_resolve (path : PurePath) : M PurePath :=
  fun io =>
    match resolve path (world io) with
    | Some r => (Ok r, io)
    | None => (Raise (ResolveError (str path)), io)
    end.

Definition print (l : Line) : M unit := emit (EvPrint l).

(** A [for] loop whose body may raise. *)
Fixpoint for_each {A S} (body : S -> A -> M S) (l : list A) (s : S) : M S :=
  match l with
  | [] => ret s
  | x :: r => s' <- body s x ;; for_each body r s'
  end.

(** ** Transfer pass (lines 89-123) *)

(** [progress_bar] is [None] when the pass is not run: the bar is only
    built inside [if args.download]. *)
Record TransferState := mkTransfer {
  downloaded_files : Z;
  downloaded_bytes : Z;
  progress_bar : option Tqdm
}.

(** Body of the inner loop, one listed object. *)
Definition transfer_obj (extensions : option (list string))
  (DEST_ROOT : PurePath) (st : TransferState) (obj : Obj) : M TransferState :=
  let key := Key obj in
  let size := Size obj in
  if endswith key "/" then ret st
  else if truthy_list extensions
          && negb (str_in (lower (suffix (Path key)))
                     (match extensions with Some l => l | None => [] end))
  then ret st
  else
    let local_path := truediv DEST_ROOT key in
    do_mkdir (str (parent local_path)) ;;;
    do_download key (str local_path) ;;;
    let downloaded_bytes' := downloaded_bytes st + size in
    let downloaded_files' := downloaded_files st + 1 in
    ret (mkTransfer downloaded_files' downloaded_bytes'
           (option_map
              (fun bar => tqdm_update size (tqdm_set_postfix downloaded_files' bar))
              (progress_bar st))).

Definition transfer_page (extensions : option (list string))
  (DEST_ROOT : PurePath) (st : TransferState) (page : Page) : M TransferState :=
  for_each (transfer_obj extensions DEST_ROOT) (get_Contents page) st.

Definition transfer_pass (extensions : option (list string))
  (DEST_ROOT : PurePath) (quiet : bool) (total_bytes : Z) (pages : list Page)
  : M TransferState :=
  for_each (transfer_page extensions DEST_ROOT) pages
    (mkTransfer 0 0 (Some (tqdm (Some total_bytes) quiet))).

(** ** Report (lines 130-151) *)

(** [sorted(keys)]: a stable sort that only calls [<]. *)
Fixpoint sorted_insert (x : PurePath) (l : list PurePath) : list PurePath :=
  match l with
  | [] => [x]
  | y :: r => if path_ltb y x then y :: sorted_insert x r else x :: y :: r
  end.

Definition sorted (l : list PurePath) : list PurePath :=
  fold_right sorted_insert [] l.

(** [stats[folder]] in the report loop; the factory value is what the
    [defaultdict] yields for a missing key. *)
Definition getitem (d : StatsDict) (folder : PurePath) : FolderStats :=
  match dict_lookup folder d with Some v => v | None => zero_stats end.

Definition folder_lines (d : StatsDict) (folder : PurePath) : list Line :=
  let v := getitem d folder in
  [LFolder (str folder) (files v) (format_gb (bytes v)) (ignored v); LBlank].

Definition report_folders (d : StatsDict) : list PurePath :=
  sorted (map fst d).

Definition report (PREFIX : string) (details download : bool)
  (DEST_ROOT : option PurePath) (sc : ScanState) (tf : TransferState) : M unit :=
  print (LHeader PREFIX) ;;;
  (if details
   then for_each (fun _ l => print l)
          (flat_map (folder_lines (stats sc)) (report_folders (stats sc))) tt
   else ret tt) ;;;
  print (LTotal (total_files sc) (format_gb (total_bytes sc)) (total_ignored sc)) ;;;
  if download then
    match DEST_ROOT with
    | Some d =>
        r <- do_resolve d ;;
        print (LDownloaded (downloaded_files tf =? 1) (downloaded_files tf)
                 (format_gb (downloaded_bytes tf)) (str r))
    | None => raise NameError
    end
  else ret tt.

(** ** The whole script *)

(** [listing1] and [listing2] are the pages of the two enumerations. *)
Definition main (args : Args) (listing1 listing2 : list Page)
  : M (ScanState * TransferState) :=
  match check_usage args with
  | None => raise RuntimeError
  | Some DEST_ROOT =>
      let extensions := normalise_extensions (arg_extensions args) in
      let PREFIX := normalise_prefix (arg_prefix args) in
      emit EvClient ;;;
      emit (EvPaginate PREFIX) ;;;
      let sc := scan_pass extensions (arg_quiet args) listing1 in
      tf <- (if arg_download args then
               emit (EvPaginate PREFIX) ;;;
               transfer_pass extensions
                 (match DEST_ROOT with Some d => d | None => mkPath "" [] end)
                 (arg_quiet args) (total_bytes sc) listing2
             else ret (mkTransfer 0 0 None)) ;;
      report PREFIX (arg_details args) (arg_download args) DEST_ROOT sc tf ;;;
      ret (sc, tf)
  end.

Definition run (args : Args) (listing1 listing2 : list Page) (w : World)
  : Res (ScanState * TransferState) * IO :=
  main args listing1 listing2 (mkIO w []).

End Effects.

Arguments mkIO {World} world trace.
Arguments world {World} i.
Arguments trace {World} i.

Arguments run {World} mkdir download_file resolve args listing1 listing2 w.
Arguments main {World} mkdir download_file resolve args listing1 listing2 _.
Arguments transfer_pass {World} mkdir download_file extensions DEST_ROOT quiet total_bytes pages _.
Arguments transfer_page {World} mkdir download_file extensions DEST_ROOT st page _.
Arguments transfer_obj {World} mkdir download_file extensions DEST_ROOT st obj _.
Arguments report {World} resolve PREFIX details download DEST_ROOT sc tf _.
Arguments do_resolve {World} resolve path _.
Arguments for_each {World A S} body l s _.
Arguments do_mkdir {World} mkdir path _.
Arguments do_download {World} download_file key path _.
Arguments emit {World} e _.
Arguments print {World} l _.
Arguments ret {World A} a _.
Arguments bind {World A B} m k _.
Arguments raise {World A} e _.

(** ** Derived notions used in the statements *)

(** All objects of a listing, in arrival order. *)
Definition entries (pages : list Page) : list Obj :=
  flat_map get_Contents pages.

(** Sum of one field over the whole dictionary. *)
Definition dict_sum (field : FolderStats -> Z) (d : StatsDict) : Z :=
  fold_right (fun kv acc => field (snd kv) + acc) 0 d.

(** The test both passes apply to an object that is not skipped. *)
Definition is_marker (obj : Obj) : bool := endswith (Key obj) "/".

Definition passes_filter (extensions : option (list string)) (obj : Obj) : bool :=
  negb (truthy_list extensions)
  || str_in (lower (suffix (Path (Key obj))))
       (match extensions with Some l => l | None => [] end).

Definition is_counted (extensions : option (list string)) (obj : Obj) : bool :=
  negb (is_marker obj) && passes_filter extensions obj.

Definition is_ignored (extensions : option (list string)) (obj : Obj) : bool :=
  negb (is_marker obj) && negb (passes_filter extensions obj).

Definition sum_sizes (l : list Obj) : Z :=
  fold_right (fun o acc => Size o + acc) 0 l.

(** Projections of a trace. *)
Definition downloads (tr : list Event) : list (string * string) :=
  flat_map (fun e => match e with EvDownload k p => [(k, p)] | _ => [] end) tr.

Definition printed (tr : list Event) : list Line :=
  flat_map (fun e => match e with EvPrint l => [l] | _ => [] end) tr.

Definition printed_folders (tr : list Event) : list string :=
  flat_map (fun e => match e with
                     | EvPrint (LFolder f _ _ _) => [f]
                     | _ => []
                     end) tr.

(** The invariant of the scan loop: each global total is the sum of
    the matching field over the dictionary. *)
Definition sum_invariant (st : ScanState) : Prop :=
  total_files st = dict_sum files (stats st)
  /\ total_bytes st = dict_sum bytes (stats st)
  /\ total_ignored st = dict_sum ignored (stats st).

(** The keys of the dictionary as [__eq__] sees them. *)
Definition dict_keys (d : StatsDict) : list (list string) :=
  map (fun kv => parts (fst kv)) d.

(** Order induced by [__lt__]: [p] may stand before [q]. *)
Definition path_le (p q : PurePath) : Prop := path_ltb q p = false.

(** Ascending order of the folder strings, as the specification words
    the report order. *)
Definition ascending_by_string (l : list string) : Prop :=
  Sorted (fun a b => String.leb a b = true) l.

(** The suffix as the specification words it: from the last dot of the
    final [/]-separated segment of the key, empty without a dot. *)
Definition final_segment (key : string) : string := last (split sep key) "".

Definition spec_suffix (key : string) : string :=
  match rfind dot (final_segment key) with
  | Some i => slice_from i (final_segment key)
  | None => ""
  end.

(** The final path component as [pathlib] has it: the last segment of
    the key that is neither empty nor [.]; empty when there is none. *)
Definition final_component (key : string) : string :=
  last (filter keep_part (split sep key)) "".

(** The rule of [PurePath.suffix] on a component: the last dot counts
    only when it is neither the first nor the last character. *)
Definition component_suffix (seg : string) : string :=
  match rfind dot seg with
  | Some i =>
      if ((0 <? i) && (i <? String.length seg - 1))%nat
      then slice_from i seg else ""
  | None => ""
  end.

(** An option was given on the command line, whatever its value. *)
Definition supplied (o : option string) : bool :=
  match o with Some _ => true | None => false end.

(** The usage rule read on the presence of the two options. *)
Definition usage_by_presence (args : Args) : Prop :=
  (xorb (arg_download args) (supplied (arg_dest args)) = true ->
   check_usage args = None)
  /\ (xorb (arg_download args) (supplied (arg_dest args)) = false ->
      check_usage args <> None).

Definition with_quiet (q : bool) (args : Args) : Args :=
  mkArgs (arg_prefix args) (arg_extensions args) (arg_details args) q
    (arg_download args) (arg_dest args).

Definition with_extensions (e : option (list string)) (args : Args) : Args :=
  mkArgs (arg_prefix args) e (arg_details args) (arg_quiet args)
    (arg_download args) (arg_dest args).

(** The counters of the two passes, without the progress bars. *)
Definition scan_counters (st : ScanState) : StatsDict * Z * Z * Z :=
  (stats st, total_files st, total_bytes st, total_ignored st).

Definition transfer_counters (st : TransferState) : Z * Z :=
  (downloaded_files st, downloaded_bytes st).

(** Two runs agree on everything but the progress bars. *)
Definition same_results {World}
  (r1 r2 : Res (ScanState * TransferState) * IO World) : Prop :=
  snd r1 = snd r2
  /\ match fst r1, fst r2 with
     | Ok (sc1, tf1), Ok (sc2, tf2) =>
         scan_counters sc1 = scan_counters sc2
         /\ transfer_counters tf1 = transfer_counters tf2
     | Raise e1, Raise e2 => e1 = e2
     | _, _ => False
     end.

(** The folder an object is grouped under, and what the scan does to
    that folder's accumulator. *)
Definition folder_of (obj : Obj) : PurePath := parent (Path (Key obj)).

Definition entry_update (extensions : option (list string)) (obj : Obj)
  (v : FolderStats) : FolderStats :=
  if passes_filter extensions obj
  then add_bytes (Size obj) (add_files 1 v)
  else add_ignored 1 v.

(** The lines of the report up to the totals, in the order they are
    printed. *)
Definition report_body (PREFIX : string) (details : bool) (sc : ScanState)
  : list Line :=
  ([LHeader PREFIX]
   ++ (if details
       then flat_map (folder_lines (stats sc)) (report_folders (stats sc))
       else [])
   ++ [LTotal (total_files sc) (format_gb (total_bytes sc)) (total_ignored sc)])%list.

(** The whole report; [DEST_ROOT] is here the resolved destination. *)
Definition report_lines (PREFIX : string) (details download : bool)
  (DEST_ROOT : option PurePath) (sc : ScanState) (tf : TransferState) : list Line :=
  ([LHeader PREFIX]
   ++ (if details
       then flat_map (folder_lines (stats sc)) (report_folders (stats sc))
       else [])
   ++ [LTotal (total_files sc) (format_gb (total_bytes sc)) (total_ignored sc)]
   ++ (if download
       then [LDownloaded (downloaded_files tf =? 1) (downloaded_files tf)
               (format_gb (downloaded_bytes tf))
               (match DEST_ROOT with Some d => str d | None => "" end)]
       else []))%list.

(** [destinationRoot/<key>] as the specification words the local path:
    the destination followed by the components of the key. *)
Definition under_destination (DEST_ROOT : PurePath) (key : string) : PurePath :=
  mkPath (root DEST_ROOT) (parts DEST_ROOT ++ parts (Path key)).



(** Where an object is written, and the directory made for it. *)
Definition local_path (DEST_ROOT : PurePath) (obj : Obj) : string :=
  str (truediv DEST_ROOT (Key obj)).

Definition local_dir (DEST_ROOT : PurePath) (obj : Obj) : string :=
  str (parent (truediv DEST_ROOT (Key obj))).

(** The transfer state after one more object was written. *)
Definition transfer_done (st : TransferState) (obj : Obj) : TransferState :=
  mkTransfer (downloaded_files st + 1) (downloaded_bytes st + Size obj)
    (option_map
       (fun bar => tqdm_update (Size obj)
                     (tqdm_set_postfix (downloaded_files st + 1) bar))
       (progress_bar st)).

Definition not_marker (obj : Obj) : bool := negb (is_marker obj).

(** ** Further notions for the properties of the passes *)

(** The object lies directly in folder [f]. *)
Definition in_folder (f : PurePath) (obj : Obj) : bool :=
  path_eqb f (folder_of obj).

(** An extension with a dot after its first character, as [.tar.gz]. *)
Definition has_inner_dot (e : string) : bool :=
  match e with
  | String _ r => match rfind dot r with Some _ => true | None => false end
  | EmptyString => false
  end.

(** The detail line of one entry of the dictionary. *)
Definition folder_line (kv : PurePath * FolderStats) : Line :=
  LFolder (str (fst kv)) (files (snd kv)) (format_gb (bytes (snd kv)))
    (ignored (snd kv)).

Definition is_folder_line (l : Line) : bool :=
  match l with LFolder _ _ _ _ => true | _ => false end.

(** The arguments of one [download_file] call. *)
Definition download_target (DEST_ROOT : PurePath) (obj : Obj) : string * string :=
  (Key obj, local_path DEST_ROOT obj).

(** A component as [parse_parts] keeps them: not empty, not [.], and
    without separator. *)
Definition component_ok (x : string) : Prop :=
  x <> "" /\ x <> "." /\ rfind sep x = None.

(** The shape of every path the script builds: one of the three POSIX
    roots, then such components. *)
Definition well_formed (p : PurePath) : Prop :=
  exists comps,
    Forall component_ok comps
    /\ ((root p = "" /\ parts p = comps)
        \/ (root p = "/" /\ parts p = "/" :: comps)
        \/ (root p = "//" /\ parts p = "//" :: comps)).

(** The two calls made for one counted object, in program order. *)
Definition attempt_events (DEST_ROOT : PurePath) (obj : Obj) : list Event :=
  [EvMkdir (local_dir DEST_ROOT obj);
   EvDownload (Key obj) (local_path DEST_ROOT obj)].

(** The two counts shown in full on a folder line, zero on any other
    line. *)
Definition line_counts (l : Line) : Z * Z :=
  match l with
  | LFolder _ nfiles _ nignored => (nfiles, nignored)
  | _ => (0, 0)
  end.

Definition add_counts (a b : Z * Z) : Z * Z :=
  (fst a + fst b, snd a + snd b).

Definition sum_counts (ls : list Line) : Z * Z :=
  fold_right (fun l acc => add_counts (line_counts l) acc) (0, 0) ls.

(** ** Sample environment and listing *)

(** A disk and a bucket on which every call succeeds. *)
Definition always_mkdir (p : string) (w : unit) : option unit := Some w.
Definition always_download (k p : string) (w : unit) : option unit := Some w.
Definition always_resolve (p : PurePath) (w : unit) : option PurePath := Some p.

(** A destination that cannot be resolved, as with a loop of symbolic
    links. *)
Definition never_resolve (p : PurePath) (w : unit) : option PurePath := None.

(** A bucket in which one object cannot be fetched. *)
Definition download_except (bad : string) (k p : string) (w : unit) : option unit :=
  if String.eqb k bad then None else Some w.

(** The listing of the end-to-end example of the specification. *)
Definition sample_listing : list Page :=
  [mkPage (Some [mkObj "data/a/f1.nc" 100; mkObj "data/a/f2.tar" 200]);
   mkPage (Some [mkObj "data/b/" 0; mkObj "data/b/f3.nc" 50])].

Definition sample_args : Args :=
  mkArgs "data" (Some ["nc"]) true false true (Some "out").

(** ** Basic facts on path equality and the dictionary *)

Lemma parts_eqb_eq (a b : list string) : parts_eqb a b = true <-> a = b.
Proof.
  revert b; induction a as [|x a IH]; intros [|y b]; simpl; split;
    try congruence; try reflexivity.
  - intros H. apply andb_true_iff in H as [Hx Hr].
    apply String.eqb_eq in Hx. apply IH in Hr. congruence.
  - intros H. injection H as -> ->.
    apply andb_true_iff. split; [apply String.eqb_refl | now apply IH].
Qed.

Lemma path_eqb_refl (p : PurePath) : path_eqb p p = true.
Proof. unfold path_eqb. now apply parts_eqb_eq. Qed.

Lemma path_eqb_sym (p q : PurePath) : path_eqb p q = path_eqb q p.
Proof.
  unfold path_eqb.
  destruct (parts_eqb (parts p) (parts q)) eqn:E1;
    destruct (parts_eqb (parts q) (parts p)) eqn:E2; auto.
  - apply parts_eqb_eq in E1. symmetry in E1. apply parts_eqb_eq in E1. congruence.
  - apply parts_eqb_eq in E2. symmetry in E2. apply parts_eqb_eq in E2. congruence.
Qed.

Lemma path_eqb_trans (p q r : PurePath) :
  path_eqb p q = true -> path_eqb q r = true -> path_eqb p r = true.
Proof.
  unfold path_eqb. intros H1 H2.
  apply parts_eqb_eq in H1. apply parts_eqb_eq in H2.
  apply parts_eqb_eq. congruence.
Qed.

Lemma path_eqb_false_l (p q r : PurePath) :
  path_eqb p q = true -> path_eqb r q = false -> path_eqb p r = false.
Proof.
  intros H1 H2. destruct (path_eqb p r) eqn:E; auto.
  rewrite path_eqb_sym in E.
  rewrite (path_eqb_trans r p q E H1) in H2. discriminate.
Qed.

Section DictFacts.

Variable f : FolderStats -> FolderStats.
Variable k : PurePath.

Lemma dict_lookup_update_same (d : StatsDict) :
  dict_lookup k (dict_update f k d)
  = Some (f (match dict_lookup k d with Some v => v | None => zero_stats end)).
Proof.
  induction d as [|[k' v] d IH]; simpl.
  - now rewrite path_eqb_refl.
  - destruct (path_eqb k' k) eqn:E; simpl; rewrite E; auto.
Qed.

Lemma dict_lookup_update_other (d : StatsDict) (k2 : PurePath) :
  path_eqb k2 k = false ->
  dict_lookup k2 (dict_update f k d) = dict_lookup k2 d.
Proof.
  intros Hne. induction d as [|[k' v] d IH]; simpl.
  - rewrite path_eqb_sym. now rewrite Hne.
  - destruct (path_eqb k' k) eqn:E; simpl.
    + destruct (path_eqb k' k2) eqn:E2; auto.
      rewrite path_eqb_sym in E2.
      rewrite (path_eqb_trans k2 k' k E2 E) in Hne. discriminate.
    + now rewrite IH.
Qed.

Lemma dict_sum_update (field : FolderStats -> Z) (delta : Z) (d : StatsDict) :
  (forall v, field (f v) = field v + delta) ->
  field zero_stats = 0 ->
  dict_sum field (dict_update f k d) = dict_sum field d + delta.
Proof.
  intros Hf H0. induction d as [|[k' v] d IH]; simpl.
  - rewrite Hf, H0. lia.
  - destruct (path_eqb k' k); simpl.
    + rewrite Hf. lia.
    + rewrite IH. lia.
Qed.

(** The keys of the dictionary, as the component lists that [__eq__]
    and [__hash__] compare. *)
Lemma dict_update_keys (d : StatsDict) :
  map (fun kv => parts (fst kv)) (dict_update f k d)
  = if existsb (fun kv => path_eqb (fst kv) k) d
    then map (fun kv => parts (fst kv)) d
    else (map (fun kv => parts (fst kv)) d ++ [parts k])%list.
Proof.
  induction d as [|[k' v] d IH]; simpl; auto.
  destruct (path_eqb k' k) eqn:E; simpl; auto.
  rewrite IH. now destruct (existsb _ d).
Qed.

End DictFacts.

Lemma existsb_key_In (k : PurePath) (d : StatsDict) :
  existsb (fun kv => path_eqb (fst kv) k) d = false ->
  ~ In (parts k) (map (fun kv => parts (fst kv)) d).
Proof.
  induction d as [|[k' v] d IH]; simpl; auto.
  intros H [Heq | Hin].
  - apply orb_false_iff in H as [H _].
    unfold path_eqb in H. apply parts_eqb_eq in Heq. congruence.
  - apply orb_false_iff in H as [_ H]. now apply IH.
Qed.

Lemma dict_update_NoDup f k (d : StatsDict) :
  NoDup (map (fun kv => parts (fst kv)) d) ->
  NoDup (map (fun kv => parts (fst kv)) (dict_update f k d)).
Proof.
  intros H. rewrite dict_update_keys.
  destruct (existsb _ d) eqn:E; auto.
  apply NoDup_rev in H. rewrite <- (rev_involutive (_ ++ _)).
  apply NoDup_rev. rewrite rev_app_distr. simpl.
  constructor; auto.
  rewrite <- in_rev. now apply existsb_key_In.
Qed.

(** ** Scan pass: the sum invariant *)

Lemma sum_invariant_init (quiet : bool) : sum_invariant (scan_init quiet).
Proof. repeat split. Qed.

Lemma scan_obj_sum_invariant extensions st obj :
  sum_invariant st -> sum_invariant (scan_obj extensions st obj).
Proof.
  intros (Hf & Hb & Hi). unfold scan_obj.
  destruct (endswith (Key obj) "/"); [now repeat split|].
  destruct (truthy_list extensions && _); unfold sum_invariant; simpl.
  - rewrite (dict_sum_update _ _ files 0), (dict_sum_update _ _ bytes 0),
      (dict_sum_update _ _ ignored 1);
      try reflexivity; try (intros; simpl; lia).
  - rewrite (dict_sum_update _ _ files 0), (dict_sum_update _ _ files 1),
      (dict_sum_update _ _ bytes (Size obj)), (dict_sum_update _ _ bytes 0),
      !(dict_sum_update _ _ ignored 0);
      try reflexivity; try (intros; simpl; lia).
Qed.

Lemma scan_obj_NoDup extensions st obj :
  NoDup (dict_keys (stats st)) ->
  NoDup (dict_keys (stats (scan_obj extensions st obj))).
Proof.
  intros H. unfold scan_obj.
  destruct (endswith (Key obj) "/"); auto.
  destruct (truthy_list extensions && _); simpl;
    repeat apply dict_update_NoDup; auto.
Qed.

(** The nested loops visit the objects of [entries pages] in order. *)
Lemma scan_pass_entries extensions quiet pages :
  scan_pass extensions quiet pages
  = fold_left (scan_obj extensions) (entries pages) (scan_init quiet).
Proof.
  unfold scan_pass, entries. generalize (scan_init quiet).
  induction pages as [|p pages IH]; intros st; simpl; auto.
  rewrite fold_left_app. apply IH.
Qed.

Lemma fold_scan_preserves (P : ScanState -> Prop) extensions l :
  (forall st obj, P st -> P (scan_obj extensions st obj)) ->
  forall st, P st -> P (fold_left (scan_obj extensions) l st).
Proof.
  intros Hstep. induction l as [|o l IH]; intros st H; simpl; auto.
Qed.

(** C1: for every finite sequence of pages and every filter setting,
    after the scan pass the three global totals are the sums of [files],
    [bytes] and [ignored] over the per-folder accumulators, each folder
    occurring once in the dictionary. *)
Theorem scan_pass_sum_invariant :
  forall (extensions : option (list string)) (quiet : bool) (pages : list Page),
    let st := scan_pass extensions quiet pages in
    total_files st = dict_sum files (stats st)
    /\ total_bytes st = dict_sum bytes (stats st)
    /\ total_ignored st = dict_sum ignored (stats st)
    /\ NoDup (dict_keys (stats st)).
Proof.
  intros extensions quiet pages st. subst st.
  rewrite scan_pass_entries.
  assert (H : sum_invariant
                (fold_left (scan_obj extensions) (entries pages) (scan_init quiet))).
  { apply fold_scan_preserves;
      [intros; now apply scan_obj_sum_invariant | apply sum_invariant_init]. }
  destruct H as (Hf & Hb & Hi). repeat split; auto.
  apply fold_scan_preserves.
  - intros; now apply scan_obj_NoDup.
  - constructor.
Qed.

(** ** Directory markers *)

(** C5: an object whose key ends with [/] leaves the scan state and the
    transfer state as they are, performs no call and cannot raise,
    whatever the filter. *)
Theorem marker_changes_nothing :
  forall (World : Type) (mkdir : string -> World -> option World)
         (download_file : string -> string -> World -> option World)
         (extensions : option (list string)) (DEST_ROOT : PurePath)
         (sc : ScanState) (tf : TransferState) (io : IO World) (obj : Obj),
    endswith (Key obj) "/" = true ->
    scan_obj extensions sc obj = sc
    /\ transfer_obj mkdir download_file extensions DEST_ROOT tf obj io = (Ok tf, io).
Proof.
  intros World mkdir download_file extensions DEST_ROOT sc tf io obj H.
  unfold scan_obj, transfer_obj. rewrite H. split; reflexivity.
Qed.

(** ** Grouping by parent path *)

Lemma dict_lookup_eqv a b (d : StatsDict) :
  path_eqb a b = true -> dict_lookup a d = dict_lookup b d.
Proof.
  intros E. induction d as [|[k v] d IH]; simpl; auto.
  destruct (path_eqb k a) eqn:Ea.
  - now rewrite (path_eqb_trans k a b Ea E).
  - rewrite (path_eqb_sym k b).
    rewrite (path_eqb_false_l b a k ltac:(now rewrite path_eqb_sym) Ea).
    exact IH.
Qed.

Lemma dict_lookup_update_eqv f k k2 (d : StatsDict) :
  path_eqb k2 k = true ->
  dict_lookup k2 (dict_update f k d) = Some (f (getitem d k2)).
Proof.
  intros He. unfold getitem.
  rewrite !(dict_lookup_eqv k2 k) by assumption.
  apply dict_lookup_update_same.
Qed.

Lemma filter_condition extensions obj :
  truthy_list extensions
  && negb (str_in (lower (suffix (Path (Key obj))))
             (match extensions with Some l => l | None => [] end))
  = negb (passes_filter extensions obj).
Proof.
  unfold passes_filter.
  destruct (truthy_list extensions), (str_in _ _); reflexivity.
Qed.

(** One step of the scan, seen through the dictionary. *)
Lemma scan_obj_stats extensions st obj :
  endswith (Key obj) "/" = false ->
  stats (scan_obj extensions st obj)
  = if passes_filter extensions obj
    then dict_update (add_bytes (Size obj)) (folder_of obj)
           (dict_update (add_files 1) (folder_of obj) (stats st))
    else dict_update (add_ignored 1) (folder_of obj) (stats st).
Proof.
  intros Hm. unfold scan_obj. rewrite Hm, filter_condition.
  destruct (passes_filter extensions obj); reflexivity.
Qed.

Lemma scan_obj_lookup extensions st obj (f : PurePath) :
  endswith (Key obj) "/" = false ->
  dict_lookup f (stats (scan_obj extensions st obj))
  = if path_eqb f (folder_of obj)
    then Some (entry_update extensions obj (getitem (stats st) f))
    else dict_lookup f (stats st).
Proof.
  intros Hm. rewrite scan_obj_stats by assumption. unfold entry_update.
  destruct (path_eqb f (folder_of obj)) eqn:E;
    destruct (passes_filter extensions obj).
  - rewrite dict_lookup_update_eqv by assumption. unfold getitem at 1.
    now rewrite dict_lookup_update_eqv.
  - now rewrite dict_lookup_update_eqv.
  - now rewrite !dict_lookup_update_other.
  - now rewrite dict_lookup_update_other.
Qed.

Lemma scan_obj_getitem extensions st obj (f : PurePath) :
  endswith (Key obj) "/" = false ->
  getitem (stats (scan_obj extensions st obj)) f
  = if path_eqb f (folder_of obj)
    then entry_update extensions obj (getitem (stats st) f)
    else getitem (stats st) f.
Proof.
  intros Hm. unfold getitem at 1. rewrite scan_obj_lookup by assumption.
  now destruct (path_eqb f (folder_of obj)).
Qed.


(** ** The suffix of the filter test *)

Lemma split_not_nil (c : ascii) (s : string) : split c s <> [].
Proof.
  destruct s as [|a r]; simpl; [discriminate|].
  destruct (Ascii.eqb a c); [discriminate|].
  destruct (split c r); discriminate.
Qed.

Lemma last_cons_not_nil {A} (x d : A) (l : list A) :
  l <> [] -> last (x :: l) d = last l d.
Proof. destruct l; [congruence | reflexivity]. Qed.

(** The last segment of a key does not see its first character, unless
    the key has a single segment. *)
Lemma final_segment_cons (a : ascii) (r : string) :
  final_segment (String a r)
  = if Ascii.eqb a sep then final_segment r
    else match split sep r with
         | [h] => String a h
         | _ => final_segment r
         end.
Proof.
  unfold final_segment. simpl.
  destruct (Ascii.eqb a sep).
  - apply last_cons_not_nil, split_not_nil.
  - pose proof (split_not_nil sep r) as Hn.
    destruct (split sep r) as [|h [|h' t]]; [congruence | reflexivity | reflexivity].
Qed.

Lemma endswith_cons (a : ascii) (r : string) :
  endswith (String a r) "/"
  = match r with
    | EmptyString => String.eqb (String a "") "/"
    | _ => endswith r "/"
    end.
Proof.
  unfold endswith. cbn [String.length]. 
  destruct r as [|b r']; [reflexivity|].
  cbn [String.length Nat.leb Nat.sub andb].
  rewrite Nat.sub_0_r. reflexivity.
Qed.

Lemma final_segment_empty (key : string) :
  key <> "" -> final_segment key = "" -> endswith key "/" = true.
Proof.
  induction key as [|a r IH]; [congruence|]. intros _.
  rewrite final_segment_cons, endswith_cons.
  destruct r as [|b r'].
  - simpl. destruct (Ascii.eqb a sep) eqn:E; [|discriminate].
    apply Ascii.eqb_eq in E. subst a. reflexivity.
  - destruct (Ascii.eqb a sep).
    + apply IH. discriminate.
    + destruct (split sep (String b r')) as [|h [|h' t]] eqn:Es;
        try discriminate; apply IH; discriminate.
Qed.

Lemma lstrip_final_segment (s : string) :
  final_segment (lstrip sep s) = final_segment s.
Proof.
  induction s as [|a r IH]; [reflexivity|].
  simpl lstrip. destruct (Ascii.eqb a sep) eqn:E; [|reflexivity].
  rewrite IH, final_segment_cons, E. reflexivity.
Qed.

Lemma last_filter {A} (keep : A -> bool) (d : A) (l : list A) :
  l <> [] -> keep (last l d) = true ->
  filter keep l <> [] /\ last (filter keep l) d = last l d.
Proof.
  induction l as [|x l IH]; [congruence|]. intros _ Hk.
  destruct l as [|y l'].
  - simpl in *. rewrite Hk. split; [discriminate | reflexivity].
  - destruct IH as [Hn Hl]; [discriminate | exact Hk |].
    change (filter keep (x :: y :: l'))
      with (if keep x then x :: filter keep (y :: l') else filter keep (y :: l')).
    destruct (keep x).
    + split; [discriminate|].
      rewrite last_cons_not_nil by exact Hn. exact Hl.
    + split; assumption.
Qed.

Lemma keep_part_true (seg : string) :
  seg <> "" -> seg <> "." -> keep_part seg = true.
Proof.
  intros H1 H2. unfold keep_part.
  destruct (String.eqb seg "") eqn:E1; [apply String.eqb_eq in E1; congruence|].
  destruct (String.eqb seg ".") eqn:E2; [apply String.eqb_eq in E2; congruence|].
  reflexivity.
Qed.

(** [Path(key).name] is the final segment of [key], when that segment is
    a real component. *)
Lemma name_Path (key : string) :
  final_segment key <> "" -> final_segment key <> "." ->
  name (Path key) = final_segment key.
Proof.
  intros H1 H2.
  destruct key as [|a r]; [exfalso; apply H1; reflexivity|].
  unfold Path, parse_parts.
  destruct (splitroot (String a r)) as [rt rel] eqn:Esr.
  assert (Hrel : final_segment rel = final_segment (String a r)).
  { unfold splitroot in Esr. destruct (Ascii.eqb a sep) eqn:Ea.
    - destruct (_ =? 2)%nat; injection Esr as _ <-;
        apply (lstrip_final_segment (String a r)).
    - injection Esr as _ <-. reflexivity. }
  destruct (last_filter keep_part "" (split sep rel)) as [Hn Hl].
  { apply split_not_nil. }
  { change (last (split sep rel) "") with (final_segment rel).
    rewrite Hrel. now apply keep_part_true. }
  change (last (split sep rel) "") with (final_segment rel) in Hl.
  unfold name. cbn [root parts].
  destruct (String.eqb rt "") eqn:Ert.
  - destruct (filter keep_part (split sep rel)) as [|x l] eqn:Ef; [congruence|].
    cbn [List.length Nat.eqb]. rewrite Hl. exact Hrel.
  - destruct (filter keep_part (split sep rel)) as [|x l] eqn:Ef; [congruence|].
    cbn [List.length Nat.eqb]. rewrite last_cons_not_nil by discriminate.
    rewrite Hl. exact Hrel.
Qed.

Lemma suffix_Path (key : string) :
  endswith key "/" = false -> final_segment key <> "." ->
  suffix (Path key) = component_suffix (final_segment key).
Proof.
  intros Hm Hd. destruct (String.eqb key "") eqn:Ek.
  - apply String.eqb_eq in Ek. subst key. reflexivity.
  - assert (Hne : final_segment key <> "").
    { intros Hf. apply String.eqb_neq in Ek.
      rewrite (final_segment_empty key Ek Hf) in Hm. discriminate. }
    unfold suffix. rewrite name_Path by assumption. reflexivity.
Qed.

Lemma filter_split_lstrip (s : string) :
  filter keep_part (split sep (lstrip sep s)) = filter keep_part (split sep s).
Proof.
  induction s as [|a r IH]; [reflexivity|].
  cbn [lstrip]. destruct (Ascii.eqb a sep) eqn:E; [|reflexivity].
  rewrite IH. cbn [split]. rewrite E. reflexivity.
Qed.

(** [Path(key).name] for every key. *)
Lemma name_Path_component (key : string) : name (Path key) = final_component key.
Proof.
  unfold final_component. destruct key as [|a r]; [reflexivity|].
  unfold Path, parse_parts.
  destruct (splitroot (String a r)) as [rt rel] eqn:Esr.
  assert (Hrel : filter keep_part (split sep rel)
                 = filter keep_part (split sep (String a r))).
  { unfold splitroot in Esr. destruct (Ascii.eqb a sep) eqn:Ea.
    - destruct (_ =? 2)%nat; injection Esr as _ <-;
        apply (filter_split_lstrip (String a r)).
    - injection Esr as _ <-. reflexivity. }
  rewrite <- Hrel. unfold name. cbn [root parts].
  destruct (String.eqb rt "");
    destruct (filter keep_part (split sep rel)) as [|x l]; reflexivity.
Qed.

(** C3 (amended): when a filter is set, the suffix tested is that of
    the final path component as [pathlib] has it, the last segment of
    the key that is neither empty nor [.]: from the last dot of that
    component onward when the dot is neither its first nor its last
    character, empty otherwise; it is lower-cased with [str.lower]
    before the membership test.  With the filter [.nc], [a/b/data.NC]
    is counted and [a/b/data.tar] ignored. *)
Theorem suffix_filter_test :
  (forall key : string,
      suffix (Path key) = component_suffix (final_component key))
  /\ (forall (exts : list string) (st : ScanState) (obj : Obj),
      exts <> [] ->
      endswith (Key obj) "/" = false ->
      scan_counters (scan_obj (Some exts) st obj)
      = if str_in (lower (component_suffix (final_component (Key obj)))) exts
        then (dict_update (add_bytes (Size obj)) (folder_of obj)
                (dict_update (add_files 1) (folder_of obj) (stats st)),
              total_files st + 1, total_bytes st + Size obj, total_ignored st)
        else (dict_update (add_ignored 1) (folder_of obj) (stats st),
              total_files st, total_bytes st, total_ignored st + 1))
  /\ (lower_on_ascii lower ->
      scan_counters (scan_pass (normalise_extensions (Some [".nc"])) true
                       [mkPage (Some [mkObj "a/b/data.NC" 5])])
      = ([(Path "a/b", mkStats 1 5 0)], 1, 5, 0)
      /\ scan_counters (scan_pass (normalise_extensions (Some [".nc"])) true
                          [mkPage (Some [mkObj "a/b/data.tar" 5])])
         = ([(Path "a/b", mkStats 0 0 1)], 0, 0, 1)).
Proof.
  assert (Hs : forall key, suffix (Path key)
                           = component_suffix (final_component key)).
  { intros key. unfold suffix. rewrite name_Path_component. reflexivity. }
  split; [exact Hs | split].
  - intros exts st obj Hne Hm.
    unfold scan_obj, scan_counters. rewrite Hm, Hs.
    destruct exts as [|e exts]; [congruence|].
    cbn [truthy_list andb].
    destruct (str_in _ (e :: exts)); reflexivity.
  - intros Hl.
    assert (E1 : lower ".nc" = ".nc") by (rewrite Hl; reflexivity).
    assert (E2 : lower ".NC" = ".nc") by (rewrite Hl; reflexivity).
    assert (E3 : lower ".tar" = ".tar") by (rewrite Hl; reflexivity).
    split.
    + cbv [normalise_extensions truthy_list option_map map normalise_ext].
      change (startswith ".nc" ".") with true. cbv iota. rewrite E1.
      cbv [scan_pass scan_page get_Contents Contents fold_left scan_obj Key Size].
      change (endswith "a/b/data.NC" "/") with false. cbv iota.
      change (suffix (Path "a/b/data.NC")) with ".NC". rewrite E2. reflexivity.
    + cbv [normalise_extensions truthy_list option_map map normalise_ext].
      change (startswith ".nc" ".") with true. cbv iota. rewrite E1.
      cbv [scan_pass scan_page get_Contents Contents fold_left scan_obj Key Size].
      change (endswith "a/b/data.tar" "/") with false. cbv iota.
      change (suffix (Path "a/b/data.tar")) with ".tar". rewrite E3. reflexivity.
Qed.

(** ** The transfer loop and the report, step by step *)

Section Run.

Context {World : Type}.
Variable mkdir : string -> World -> option World.
Variable download_file : string -> string -> World -> option World.
Variable resolve : PurePath -> World -> option PurePath.

Lemma for_each_app {A S} (body : S -> A -> M World S) (l1 l2 : list A) s io :
  for_each body (l1 ++ l2) s io
  = match for_each body l1 s io with
    | (Ok s', io') => for_each body l2 s' io'
    | (Raise e, io') => (Raise e, io')
    end.
Proof.
  revert s io. induction l1 as [|x l1 IH]; intros s io; [reflexivity|].
  cbn [app for_each]. unfold bind.
  destruct (body s x io) as [[s'|e] io'].
  - rewrite IH. reflexivity.
  - reflexivity.
Qed.

(** The nested loops of the transfer visit [entries pages] in order. *)
Lemma transfer_pages_entries extensions DEST_ROOT (pages : list Page) st io :
  for_each (transfer_page mkdir download_file extensions DEST_ROOT) pages st io
  = for_each (transfer_obj mkdir download_file extensions DEST_ROOT)
      (entries pages) st io.
Proof.
  revert st io. induction pages as [|p pages IH]; intros st io; [reflexivity|].
  cbn [for_each entries flat_map]. rewrite for_each_app.
  unfold bind, transfer_page at 1.
  destruct (for_each _ (get_Contents p) st io) as [[s'|e] io']; auto.
Qed.

(** One object of the transfer loop. *)
Lemma transfer_obj_step extensions DEST_ROOT st obj (io : IO World) :
  transfer_obj mkdir download_file extensions DEST_ROOT st obj io
  = if is_counted extensions obj then
      let dir := local_dir DEST_ROOT obj in
      let path := local_path DEST_ROOT obj in
      match mkdir dir (world io) with
      | None => (Raise (MkdirError dir),
                 mkIO (world io) (trace io ++ [EvMkdir dir]))
      | Some w1 =>
          match download_file (Key obj) path w1 with
          | None => (Raise (DownloadError (Key obj)),
                     mkIO w1 (trace io ++ [EvMkdir dir; EvDownload (Key obj) path]))
          | Some w2 => (Ok (transfer_done st obj),
                        mkIO w2 (trace io ++ [EvMkdir dir; EvDownload (Key obj) path]))
          end
      end
    else (Ok st, io).
Proof.
  unfold transfer_obj, is_counted, is_marker.
  destruct (endswith (Key obj) "/"); [reflexivity|].
  rewrite filter_condition.
  destruct (passes_filter extensions obj); [|reflexivity].
  cbn [negb andb]. unfold bind, do_mkdir, do_download, local_dir, local_path.
  cbv zeta.
  destruct (mkdir _ (world io)) as [w1|]; [|reflexivity].
  cbn [world trace].
  destruct (download_file _ _ w1) as [w2|]; cbn [world trace];
    rewrite <- app_assoc; reflexivity.
Qed.

Lemma for_each_print (ls : list Line) (io : IO World) :
  for_each (fun (_ : unit) l => print l) ls tt io
  = (Ok tt, mkIO (world io) (trace io ++ map EvPrint ls)).
Proof.
  revert io. induction ls as [|l ls IH]; intros io.
  - cbn. rewrite app_nil_r. now destruct io.
  - cbn [for_each map]. unfold bind, print, emit at 1.
    rewrite IH. cbn [world trace]. rewrite <- app_assoc. reflexivity.
Qed.

Lemma report_lines_body PREFIX details download DEST_ROOT sc tf :
  report_lines PREFIX details download DEST_ROOT sc tf
  = (report_body PREFIX details sc
     ++ (if download
         then [LDownloaded (downloaded_files tf =? 1) (downloaded_files tf)
                 (format_gb (downloaded_bytes tf))
                 (match DEST_ROOT with Some d => str d | None => "" end)]
         else []))%list.
Proof.
  unfold report_lines, report_body. now rewrite <- !app_assoc.
Qed.

Lemma report_spec PREFIX details download DEST_ROOT sc tf (io : IO World) :
  report resolve PREFIX details download DEST_ROOT sc tf io
  = if download then
      match DEST_ROOT with
      | Some d =>
          match resolve d (world io) with
          | Some r =>
              (Ok tt, mkIO (world io)
                        (trace io ++ map EvPrint
                           (report_lines PREFIX details true (Some r) sc tf)))
          | None =>
              (Raise (ResolveError (str d)),
               mkIO (world io)
                 (trace io ++ map EvPrint (report_body PREFIX details sc)))
          end
      | None =>
          (Raise NameError,
           mkIO (world io) (trace io ++ map EvPrint (report_body PREFIX details sc)))
      end
    else
      (Ok tt, mkIO (world io)
                (trace io ++ map EvPrint
                   (report_lines PREFIX details false DEST_ROOT sc tf))).
Proof.
  rewrite !report_lines_body.
  unfold report, report_body, bind, print, emit, do_resolve, raise.
  cbn [world trace].
  assert (Hd : (if details
                then for_each (fun (_ : unit) l => print l)
                       (flat_map (folder_lines (stats sc)) (report_folders (stats sc)))
                       tt
                else ret tt)
                 (mkIO (world io) (trace io ++ [EvPrint (LHeader PREFIX)]))
               = (Ok tt,
                  mkIO (world io)
                    (trace io ++ map EvPrint
                       ([LHeader PREFIX]
                        ++ (if details
                            then flat_map (folder_lines (stats sc))
                                   (report_folders (stats sc))
                            else [])))%list)).
  { destruct details.
    - rewrite for_each_print. cbn [world trace map app].
      now rewrite <- app_assoc.
    - cbn [ret map app]. rewrite ?app_nil_r. reflexivity. }
  unfold print, emit in Hd. rewrite Hd. cbn [world trace].
  destruct download.
  - destruct DEST_ROOT as [d|].
    + cbn [world trace].
      destruct (resolve d (world io)) as [r|] eqn:Er; cbn [world trace];
        rewrite ?Er, ?report_lines_body; unfold report_body; cbn [world trace];
        rewrite ?map_app, <- ?app_assoc; reflexivity.
    + unfold report_body. rewrite ?map_app, <- ?app_assoc. reflexivity.
  - cbn [ret]. rewrite ?report_lines_body. unfold report_body.
    rewrite ?app_nil_r, ?map_app, <- ?app_assoc. reflexivity.
Qed.

(** The script after a successful usage check. *)
Lemma run_after_check args listing1 listing2 (w : World) DEST_ROOT :
  check_usage args = Some DEST_ROOT ->
  let extensions := normalise_extensions (arg_extensions args) in
  let PREFIX := normalise_prefix (arg_prefix args) in
  let sc := scan_pass extensions (arg_quiet args) listing1 in
  run mkdir download_file resolve args listing1 listing2 w
  = if arg_download args then
      match for_each (transfer_obj mkdir download_file extensions
                        (match DEST_ROOT with Some d => d | None => mkPath "" [] end))
              (entries listing2)
              (mkTransfer 0 0 (Some (tqdm (Some (total_bytes sc)) (arg_quiet args))))
              (mkIO w [EvClient; EvPaginate PREFIX; EvPaginate PREFIX]) with
      | (Ok tf, io1) =>
          match DEST_ROOT with
          | Some d =>
              match resolve d (world io1) with
              | Some r =>
                  (Ok (sc, tf),
                   mkIO (world io1)
                     (trace io1 ++ map EvPrint
                        (report_lines PREFIX (arg_details args) true (Some r) sc tf)))
              | None =>
                  (Raise (ResolveError (str d)),
                   mkIO (world io1)
                     (trace io1 ++ map EvPrint
                        (report_body PREFIX (arg_details args) sc)))
              end
          | None =>
              (Raise NameError,
               mkIO (world io1)
                 (trace io1 ++ map EvPrint (report_body PREFIX (arg_details args) sc)))
          end
      | (Raise e, io1) => (Raise e, io1)
      end
    else
      (Ok (sc, mkTransfer 0 0 None),
       mkIO w ([EvClient; EvPaginate PREFIX]
               ++ map EvPrint
                    (report_lines PREFIX (arg_details args) false DEST_ROOT sc
                       (mkTransfer 0 0 None)))).
Proof.
  intros Hu. cbv zeta. unfold run, main. rewrite Hu.
  unfold bind, emit. cbn [world trace app].
  destruct (arg_download args).
  - unfold transfer_pass. rewrite transfer_pages_entries.
    destruct (for_each _ (entries listing2) _ _) as [[tf|e] io1]; [|reflexivity].
    rewrite report_spec.
    destruct DEST_ROOT as [d|]; [|reflexivity].
    destruct (resolve d (world io1)); reflexivity.
  - unfold ret at 1. rewrite report_spec. reflexivity.
Qed.

End Run.

Section TransferLoop.

Context {World : Type}.
Variable mkdir : string -> World -> option World.
Variable download_file : string -> string -> World -> option World.
Variable extensions : option (list string).
Variable DEST_ROOT : PurePath.

Let body := transfer_obj mkdir download_file extensions DEST_ROOT.

(** What one object can do: nothing is printed and the only exceptions
    are those of the two calls. *)
Lemma transfer_obj_quiet st obj (io : IO World) r io' :
  body st obj io = (r, io') ->
  printed (trace io') = printed (trace io) /\ r <> Raise RuntimeError.
Proof.
  unfold body. rewrite transfer_obj_step.
  destruct (is_counted extensions obj).
  - cbv zeta. destruct (mkdir _ (world io)) as [w1|].
    + destruct (download_file _ _ w1) as [w2|]; intros H; injection H as <- <-;
        cbn [trace]; unfold printed; rewrite flat_map_app; cbn;
        rewrite app_nil_r; split; auto; discriminate.
    + intros H; injection H as <- <-.
      cbn [trace]; unfold printed; rewrite flat_map_app; cbn;
        rewrite app_nil_r; split; auto; discriminate.
  - intros H; injection H as <- <-. split; auto; discriminate.
Qed.

Lemma transfer_loop_quiet (l : list Obj) st (io : IO World) r io' :
  for_each body l st io = (r, io') ->
  printed (trace io') = printed (trace io) /\ r <> Raise RuntimeError.
Proof.
  revert st io. induction l as [|o l IH]; intros st io.
  - cbn. intros H; injection H as <- <-. split; auto; discriminate.
  - cbn [for_each]. unfold bind.
    destruct (body st o io) as [[s'|e] io1] eqn:Eo.
    + intros H. apply IH in H as [Hp Hr].
      apply transfer_obj_quiet in Eo as [Hp1 _]. split; congruence.
    + intros H; injection H as <- <-.
      apply transfer_obj_quiet in Eo. exact Eo.
Qed.

(** When no call fails, the loop downloads the counted objects, in
    order, and counts them. *)
Lemma transfer_loop_success (l : list Obj) st (io : IO World) :
  (forall p w, mkdir p w <> None) ->
  (forall k p w, download_file k p w <> None) ->
  exists st' io',
    for_each body l st io = (Ok st', io')
    /\ downloads (trace io')
       = (downloads (trace io)
          ++ map (fun o => (Key o, local_path DEST_ROOT o))
               (filter (is_counted extensions) l))%list
    /\ downloaded_files st'
       = downloaded_files st + Z.of_nat (List.length (filter (is_counted extensions) l))
    /\ downloaded_bytes st'
       = downloaded_bytes st + sum_sizes (filter (is_counted extensions) l).
Proof.
  intros Hmk Hdl. revert st io. induction l as [|o l IH]; intros st io.
  - exists st, io. cbn. rewrite app_nil_r. repeat split; lia.
  - cbn [for_each]. unfold bind, body at 1. rewrite transfer_obj_step.
    cbn [filter]. destruct (is_counted extensions o).
    + cbv zeta.
      destruct (mkdir _ (world io)) as [w1|] eqn:E1; [|now apply Hmk in E1].
      destruct (download_file _ _ w1) as [w2|] eqn:E2; [|now apply Hdl in E2].
      destruct (IH (transfer_done st o)
                  (mkIO w2 (trace io ++ [EvMkdir (local_dir DEST_ROOT o);
                                         EvDownload (Key o) (local_path DEST_ROOT o)])))
        as (st' & io' & Hrun & Hd & Hf & Hb).
      exists st', io'. split; [exact Hrun|].
      rewrite Hd, Hf, Hb. cbn [trace transfer_done downloaded_files downloaded_bytes].
      unfold downloads at 1. rewrite flat_map_app. cbn [flat_map app].
      cbn [map List.length sum_sizes fold_right].
      rewrite <- app_assoc. cbn [app].
      repeat split; try reflexivity.
      * rewrite Nat2Z.inj_succ. lia.
      * unfold sum_sizes. lia.
    + apply IH.
Qed.

End TransferLoop.

(** ** Usage check *)

Lemma check_usage_cases (args : Args) :
  if xorb (arg_download args) (truthy_str (arg_dest args))
  then check_usage args = None
  else check_usage args
       = Some (if arg_download args then option_map Path (arg_dest args) else None).
Proof.
  unfold check_usage.
  destruct (arg_download args), (truthy_str (arg_dest args)); reflexivity.
Qed.

(** C7 (amended): when exactly one of [--download] and a non-empty
    [--dest] is given, the script raises before the client is built,
    before any listing request and before anything is printed; when both
    or neither are given, the usage error is not raised. *)
Theorem usage_error_on_mismatch :
  forall (World : Type) (mkdir : string -> World -> option World)
         (download_file : string -> string -> World -> option World)
         (resolve : PurePath -> World -> option PurePath)
         (args : Args) (listing1 listing2 : list Page) (w : World),
    if xorb (arg_download args) (truthy_str (arg_dest args))
    then run mkdir download_file resolve args listing1 listing2 w
         = (Raise RuntimeError, mkIO w [])
    else fst (run mkdir download_file resolve args listing1 listing2 w)
         <> Raise RuntimeError.
Proof.
  intros World mkdir download_file resolve args listing1 listing2 w.
  pose proof (check_usage_cases args) as Hc.
  destruct (xorb (arg_download args) (truthy_str (arg_dest args))).
  - unfold run, main. rewrite Hc. reflexivity.
  - rewrite (run_after_check mkdir download_file resolve args listing1 listing2 w _ Hc).
    cbv zeta. destruct (arg_download args); [|discriminate].
    destruct (for_each _ (entries listing2) _ _) as [[tf|e] io1] eqn:E.
    + destruct (option_map Path (arg_dest args)) as [d|]; [|discriminate].
      destruct (resolve d (world io1)); discriminate.
    + apply transfer_loop_quiet in E as [_ Hr].
      cbn [fst]. intros Heq. injection Heq as ->. now apply Hr.
Qed.

(** ** Transfer against scan *)

Lemma scan_fold_totals extensions (l : list Obj) (st : ScanState) :
  let st' := fold_left (scan_obj extensions) l st in
  total_files st'
  = total_files st + Z.of_nat (List.length (filter (is_counted extensions) l))
  /\ total_bytes st' = total_bytes st + sum_sizes (filter (is_counted extensions) l)
  /\ total_ignored st'
     = total_ignored st + Z.of_nat (List.length (filter (is_ignored extensions) l)).
Proof.
  revert st. induction l as [|o l IH]; intros st; cbv zeta.
  - cbn. lia.
  - cbn [fold_left filter]. destruct (IH (scan_obj extensions st o)) as (Hf & Hb & Hi).
    rewrite Hf, Hb, Hi. clear IH Hf Hb Hi.
    unfold scan_obj, is_counted, is_ignored, is_marker.
    destruct (endswith (Key o) "/"); cbn [negb andb]; [lia|].
    rewrite filter_condition.
    destruct (passes_filter extensions o); cbn [negb];
      cbn [total_files total_bytes total_ignored List.length sum_sizes fold_right];
      rewrite ?Nat2Z.inj_succ; unfold sum_sizes; lia.
Qed.


Lemma downloads_app (a b : list Event) :
  downloads (a ++ b) = (downloads a ++ downloads b)%list.
Proof. apply flat_map_app. Qed.

Lemma startswith_sep (a : ascii) (r : string) :
  startswith (String a r) "/" = Ascii.eqb a sep.
Proof.
  unfold startswith, String.prefix.
  destruct (ascii_dec "/"%char a) as [<-|Hne].
  - now destruct r.
  - symmetry. apply Ascii.eqb_neq. intros ->. now apply Hne.
Qed.

Lemma parse_parts_root (key : string) :
  String.eqb (fst (parse_parts key)) "" = negb (startswith key "/").
Proof.
  destruct key as [|a r]; [reflexivity|].
  rewrite startswith_sep. unfold parse_parts, splitroot.
  destruct (Ascii.eqb a sep); [|reflexivity].
  destruct (_ =? 2)%nat; reflexivity.
Qed.

Lemma truediv_cases (DEST_ROOT : PurePath) (key : string) :
  truediv DEST_ROOT key
  = if startswith key "/" then Path key else under_destination DEST_ROOT key.
Proof.
  pose proof (parse_parts_root key) as H.
  unfold truediv, under_destination, Path.
  destruct (parse_parts key) as [root2 parts2].
  cbn [fst] in H. rewrite H.
  destruct (startswith key "/"); reflexivity.
Qed.



(** ** Failure during the transfer *)

(** C8: if, after the objects before it were processed without failure,
    the directory creation or the download of one counted object fails,
    the script ends with that exception right after the failing call:
    the call is made once, nothing of the listing after it is processed,
    and no line of the report is printed. *)
Theorem transfer_aborts_on_failure :
  forall (World : Type) (mkdir : string -> World -> option World)
         (download_file : string -> string -> World -> option World)
         (resolve : PurePath -> World -> option PurePath)
         (args : Args) (listing1 listing2 : list Page) (w : World)
         (DEST_ROOT : PurePath) (pre post : list Obj) (obj : Obj)
         (st : TransferState) (io1 : IO World),
    arg_download args = true ->
    check_usage args = Some (Some DEST_ROOT) ->
    entries listing2 = (pre ++ obj :: post)%list ->
    let extensions := normalise_extensions (arg_extensions args) in
    let PREFIX := normalise_prefix (arg_prefix args) in
    let sc := scan_pass extensions (arg_quiet args) listing1 in
    let dir := local_dir DEST_ROOT obj in
    let path := local_path DEST_ROOT obj in
    for_each (transfer_obj mkdir download_file extensions DEST_ROOT) pre
      (mkTransfer 0 0 (Some (tqdm (Some (total_bytes sc)) (arg_quiet args))))
      (mkIO w [EvClient; EvPaginate PREFIX; EvPaginate PREFIX])
    = (Ok st, io1) ->
    is_counted extensions obj = true ->
    (mkdir dir (world io1) = None
     \/ exists w1, mkdir dir (world io1) = Some w1
                   /\ download_file (Key obj) path w1 = None) ->
    exists e io2,
      run mkdir download_file resolve args listing1 listing2 w = (Raise e, io2)
      /\ printed (trace io2) = []
      /\ ((e = MkdirError dir
           /\ trace io2 = (trace io1 ++ [EvMkdir dir])%list)
          \/ (e = DownloadError (Key obj)
              /\ trace io2
                 = (trace io1 ++ [EvMkdir dir; EvDownload (Key obj) path])%list)).
Proof.
  intros World mkdir download_file resolve args listing1 listing2 w DEST_ROOT pre post obj
    st io1 Hd Hu He extensions PREFIX sc dir path Hpre Hc Hfail.
  rewrite (run_after_check mkdir download_file resolve args listing1 listing2 w _ Hu).
  cbv zeta. rewrite Hd, He, for_each_app.
  fold extensions PREFIX sc. rewrite Hpre.
  cbn [for_each]. unfold bind. rewrite transfer_obj_step, Hc. cbv zeta.
  fold dir path.
  assert (Hp : printed (trace io1) = []).
  { apply transfer_loop_quiet in Hpre as [Hp _]. exact Hp. }
  assert (Hpa : forall evs, printed evs = [] -> printed (trace io1 ++ evs) = []).
  { intros evs Hevs. unfold printed in *. now rewrite flat_map_app, Hp, Hevs. }
  destruct Hfail as [Hm | (w1 & Hm & Hdl)]; rewrite Hm; [|rewrite Hdl].
  - eexists; eexists. split; [reflexivity|]. cbn [trace].
    split; [now apply Hpa | left; split; reflexivity].
  - eexists; eexists. split; [reflexivity|]. cbn [trace].
    split; [now apply Hpa | right; split; reflexivity].
Qed.

(** ** Progress bars do not feed back into the counters *)

Lemma scan_obj_counters extensions st1 st2 obj :
  scan_counters st1 = scan_counters st2 ->
  scan_counters (scan_obj extensions st1 obj)
  = scan_counters (scan_obj extensions st2 obj).
Proof.
  unfold scan_counters. intros H. injection H as Hs Hf Hb Hi.
  unfold scan_obj. destruct (endswith (Key obj) "/").
  - congruence.
  - destruct (truthy_list extensions && _); cbn [stats total_files total_bytes total_ignored];
      congruence.
Qed.

Lemma scan_pass_counters extensions q1 q2 pages :
  scan_counters (scan_pass extensions q1 pages)
  = scan_counters (scan_pass extensions q2 pages).
Proof.
  rewrite !scan_pass_entries.
  assert (H : scan_counters (scan_init q1) = scan_counters (scan_init q2)) by reflexivity.
  revert H. generalize (scan_init q1), (scan_init q2).
  induction (entries pages) as [|o l IH]; intros s1 s2 H; cbn [fold_left]; auto.
  apply IH. now apply scan_obj_counters.
Qed.

Lemma transfer_loop_counters {World} mkdir download_file extensions DEST_ROOT
  (l : list Obj) (st1 st2 : TransferState) (io : IO World) :
  transfer_counters st1 = transfer_counters st2 ->
  match for_each (transfer_obj mkdir download_file extensions DEST_ROOT) l st1 io,
        for_each (transfer_obj mkdir download_file extensions DEST_ROOT) l st2 io with
  | (Ok s1, io1), (Ok s2, io2) =>
      transfer_counters s1 = transfer_counters s2 /\ io1 = io2
  | (Raise e1, io1), (Raise e2, io2) => e1 = e2 /\ io1 = io2
  | _, _ => False
  end.
Proof.
  revert st1 st2 io. induction l as [|o l IH]; intros st1 st2 io H.
  - cbn. auto.
  - cbn [for_each]. unfold bind. rewrite !transfer_obj_step.
    destruct (is_counted extensions o); [|now apply IH].
    cbv zeta. destruct (mkdir _ (world io)) as [w1|]; [|auto].
    destruct (download_file _ _ w1) as [w2|]; [|auto].
    apply IH. unfold transfer_counters in *. injection H as Hf Hb.
    cbn [transfer_done downloaded_files downloaded_bytes]. congruence.
Qed.

Lemma report_lines_counters PREFIX details download DEST_ROOT sc1 sc2 tf1 tf2 :
  scan_counters sc1 = scan_counters sc2 ->
  transfer_counters tf1 = transfer_counters tf2 ->
  report_lines PREFIX details download DEST_ROOT sc1 tf1
  = report_lines PREFIX details download DEST_ROOT sc2 tf2.
Proof.
  unfold scan_counters, transfer_counters, report_lines.
  intros H1 H2. injection H1 as -> -> -> ->. injection H2 as -> ->. reflexivity.
Qed.

Lemma report_body_counters PREFIX details sc1 sc2 :
  scan_counters sc1 = scan_counters sc2 ->
  report_body PREFIX details sc1 = report_body PREFIX details sc2.
Proof.
  unfold scan_counters, report_body.
  intros H1. injection H1 as -> -> -> ->. reflexivity.
Qed.

(** C9: the run with progress bars and the quiet run end in the same
    way, with the same per-folder accumulators, global totals and
    transfer totals, after the same calls and the same printed report. *)
Theorem quiet_does_not_change_results :
  forall (World : Type) (mkdir : string -> World -> option World)
         (download_file : string -> string -> World -> option World)
         (resolve : PurePath -> World -> option PurePath)
         (args : Args) (listing1 listing2 : list Page) (w : World),
    same_results
      (run mkdir download_file resolve (with_quiet true args) listing1 listing2 w)
      (run mkdir download_file resolve (with_quiet false args) listing1 listing2 w).
Proof.
  intros World mkdir download_file resolve args listing1 listing2 w.
  destruct (check_usage args) as [DEST_ROOT|] eqn:Hu.
  - assert (Hq : forall q, check_usage (with_quiet q args) = Some DEST_ROOT)
      by (intros q; exact Hu).
    rewrite (run_after_check mkdir download_file resolve _ listing1 listing2 w _ (Hq true)).
    rewrite (run_after_check mkdir download_file resolve _ listing1 listing2 w _ (Hq false)).
    cbv zeta. cbn [with_quiet arg_prefix arg_extensions arg_details arg_quiet
                   arg_download arg_dest].
    set (ext := normalise_extensions (arg_extensions args)).
    pose proof (scan_pass_counters ext true false listing1) as Hsc.
    destruct (arg_download args).
    + assert (Htb : total_bytes (scan_pass ext true listing1)
                    = total_bytes (scan_pass ext false listing1)).
      { unfold scan_counters in Hsc. congruence. }
      pose proof (transfer_loop_counters mkdir download_file ext
                    (match DEST_ROOT with Some d => d | None => mkPath "" [] end)
                    (entries listing2)
                    (mkTransfer 0 0
                       (Some (tqdm (Some (total_bytes (scan_pass ext true listing1))) true)))
                    (mkTransfer 0 0
                       (Some (tqdm (Some (total_bytes (scan_pass ext false listing1))) false)))
                    (mkIO w [EvClient; EvPaginate (normalise_prefix (arg_prefix args));
                             EvPaginate (normalise_prefix (arg_prefix args))])
                    eq_refl) as Ht.
      destruct (for_each _ (entries listing2) _ _) as [[s1|e1] io1];
        destruct (for_each _ (entries listing2) _ _) as [[s2|e2] io2];
        try contradiction; destruct Ht as [Ht ->].
      * destruct DEST_ROOT as [d|]; [destruct (resolve d (world io2))|];
          unfold same_results; cbn [fst snd];
          rewrite ?(report_lines_counters _ _ _ _ _ _ _ _ Hsc Ht),
            ?(report_body_counters _ _ _ _ Hsc); auto.
      * unfold same_results. cbn [fst snd]. subst. auto.
    + unfold same_results. cbn [fst snd].
      rewrite (report_lines_counters _ _ _ _ _ _ _ _ Hsc eq_refl). auto.
  - unfold run, main.
    change (check_usage (with_quiet true args)) with (check_usage args).
    change (check_usage (with_quiet false args)) with (check_usage args).
    rewrite Hu. unfold same_results. cbn. auto.
Qed.

(** ** The order of the report *)

Lemma ascii_compare_trans (a b c : ascii) :
  Ascii.compare a b = Lt -> Ascii.compare b c = Lt -> Ascii.compare a c = Lt.
Proof.
  unfold Ascii.compare. rewrite !N.compare_lt_iff. apply N.lt_trans.
Qed.

Lemma string_compare_refl (s : string) : String.compare s s = Eq.
Proof.
  induction s as [|a s IH]; [reflexivity|]. simpl.
  unfold Ascii.compare at 1. now rewrite N.compare_refl.
Qed.

Lemma string_compare_trans (a b c : string) :
  String.compare a b = Lt -> String.compare b c = Lt -> String.compare a c = Lt.
Proof.
  revert b c. induction a as [|x a IH]; intros [|y b] [|z c]; simpl;
    try congruence.
  destruct (Ascii.compare x y) eqn:Exy; try discriminate;
    destruct (Ascii.compare y z) eqn:Eyz; try discriminate; intros H1 H2.
  - apply Ascii.compare_eq_iff in Exy, Eyz. subst.
    unfold Ascii.compare at 1. rewrite N.compare_refl. now apply (IH b c).
  - apply Ascii.compare_eq_iff in Exy. subst. now rewrite Eyz.
  - apply Ascii.compare_eq_iff in Eyz. subst. now rewrite Exy.
  - now rewrite (ascii_compare_trans x y z Exy Eyz).
Qed.

Lemma parts_compare_antisym (a b : list string) :
  parts_compare a b = CompOpp (parts_compare b a).
Proof.
  revert b. induction a as [|x a IH]; intros [|y b]; simpl; auto.
  rewrite String.compare_antisym.
  destruct (String.compare y x); simpl; auto.
Qed.

Lemma parts_compare_eq (a b : list string) :
  parts_compare a b = Eq -> a = b.
Proof.
  revert b. induction a as [|x a IH]; intros [|y b]; simpl; try congruence.
  destruct (String.compare x y) eqn:E; try discriminate.
  apply String.compare_eq_iff in E. intros H. apply IH in H. congruence.
Qed.

Lemma parts_compare_trans (a b c : list string) :
  parts_compare a b = Lt -> parts_compare b c = Lt -> parts_compare a c = Lt.
Proof.
  revert b c. induction a as [|x a IH]; intros [|y b] [|z c]; simpl;
    try congruence.
  destruct (String.compare x y) eqn:Exy; try discriminate;
    destruct (String.compare y z) eqn:Eyz; try discriminate; intros H1 H2.
  - apply String.compare_eq_iff in Exy, Eyz. subst.
    rewrite string_compare_refl. now apply (IH b c).
  - apply String.compare_eq_iff in Exy. subst. now rewrite Eyz.
  - apply String.compare_eq_iff in Eyz. subst. now rewrite Exy.
  - now rewrite (string_compare_trans x y z Exy Eyz).
Qed.

(** [<] is asymmetric: what is moved behind [y] may stand after it. *)
Lemma path_ltb_asym (p q : PurePath) : path_ltb p q = true -> path_le p q.
Proof.
  unfold path_le, path_ltb. rewrite (parts_compare_antisym (parts q)).
  destruct (parts_compare (parts p) (parts q)); simpl; congruence.
Qed.

Lemma path_le_trans (p q r : PurePath) : path_le p q -> path_le q r -> path_le p r.
Proof.
  unfold path_le, path_ltb.
  rewrite (parts_compare_antisym (parts q) (parts p)),
    (parts_compare_antisym (parts r) (parts q)),
    (parts_compare_antisym (parts r) (parts p)).
  destruct (parts_compare (parts p) (parts q)) eqn:E1; simpl; try discriminate;
    destruct (parts_compare (parts q) (parts r)) eqn:E2; simpl; try discriminate;
    intros _ _.
  - apply parts_compare_eq in E1, E2.
    replace (parts p) with (parts r) by congruence.
    assert (H : parts_compare (parts r) (parts r) = Eq).
    { clear. induction (parts r) as [|x l IH]; simpl; auto.
      now rewrite string_compare_refl. }
    now rewrite H.
  - apply parts_compare_eq in E1. rewrite E1, E2. reflexivity.
  - apply parts_compare_eq in E2. rewrite <- E2, E1. reflexivity.
  - rewrite (parts_compare_trans _ _ _ E1 E2). reflexivity.
Qed.

Lemma sorted_insert_perm (x : PurePath) (l : list PurePath) :
  Permutation (x :: l) (sorted_insert x l).
Proof.
  induction l as [|y l IH]; simpl; auto.
  destruct (path_ltb y x); auto.
  rewrite perm_swap. now constructor.
Qed.

Lemma sorted_insert_sorted (x : PurePath) (l : list PurePath) :
  Sorted path_le l -> Sorted path_le (sorted_insert x l).
Proof.
  induction l as [|y l IH]; intros Hs; simpl.
  - repeat constructor.
  - destruct (path_ltb y x) eqn:E.
    + inversion Hs as [|? ? Hs' Hhd]; subst. constructor; [now apply IH|].
      destruct l as [|z l]; simpl.
      * constructor. now apply path_ltb_asym.
      * destruct (path_ltb z x); constructor.
        -- inversion Hhd; subst. assumption.
        -- now apply path_ltb_asym.
    + constructor; [assumption|]. constructor. exact E.
Qed.

Lemma sorted_perm (l : list PurePath) : Permutation l (sorted l).
Proof.
  induction l as [|x l IH]; simpl; auto.
  rewrite <- sorted_insert_perm. now constructor.
Qed.

Lemma sorted_is_sorted (l : list PurePath) : StronglySorted path_le (sorted l).
Proof.
  apply Sorted_StronglySorted.
  - intros p q r. apply path_le_trans.
  - induction l as [|x l IH]; simpl; [constructor|].
    now apply sorted_insert_sorted.
Qed.

Lemma printed_folders_lines (d : StatsDict) (fs : list PurePath) :
  printed_folders (map EvPrint (flat_map (folder_lines d) fs)) = map str fs.
Proof.
  induction fs as [|f fs IH]; [reflexivity|].
  cbn [flat_map folder_lines app map printed_folders].
  cbn. f_equal. exact IH.
Qed.

(** C4 (amended): with [--details] the folders are printed in ascending
    order of path comparison, that is, of their sequences of components
    compared one by one and not of their strings, each folder of the
    dictionary once. *)
Theorem report_order_by_components :
  forall (World : Type) (resolve : PurePath -> World -> option PurePath)
         (PREFIX : string) (download : bool)
         (DEST_ROOT : option PurePath) (sc : ScanState) (tf : TransferState)
         (io : IO World),
    StronglySorted path_le (report_folders (stats sc))
    /\ Permutation (map fst (stats sc)) (report_folders (stats sc))
    /\ printed_folders (trace (snd (report resolve PREFIX true download DEST_ROOT sc tf io)))
       = (printed_folders (trace io) ++ map str (report_folders (stats sc)))%list.
Proof.
  intros World resolve PREFIX download DEST_ROOT sc tf io.
  split; [apply sorted_is_sorted|]. split; [apply sorted_perm|].
  assert (Happ : forall a b, printed_folders (a ++ b)
                             = (printed_folders a ++ printed_folders b)%list)
    by (intros; apply flat_map_app).
  assert (Hb : printed_folders (map EvPrint (report_body PREFIX true sc))
               = map str (report_folders (stats sc))).
  { unfold report_body. rewrite !map_app, !Happ, printed_folders_lines.
    cbn. now rewrite app_nil_r. }
  assert (Hl : forall dl D,
             printed_folders (map EvPrint (report_lines PREFIX true dl D sc tf))
             = map str (report_folders (stats sc))).
  { intros dl D. rewrite report_lines_body, map_app, Happ, Hb.
    destruct dl; cbn; now rewrite app_nil_r. }
  rewrite report_spec.
  destruct download; [destruct DEST_ROOT as [d|];
                      [destruct (resolve d (world io))|]|];
    cbn [snd trace]; rewrite Happ, ?Hl, ?Hb; reflexivity.
Qed.

(** ** [--extensions] without values *)

Lemma is_counted_no_filter (obj : Obj) : is_counted None obj = not_marker obj.
Proof. unfold is_counted, passes_filter, not_marker. cbn. apply andb_true_r. Qed.

Lemma is_ignored_no_filter (obj : Obj) : is_ignored None obj = false.
Proof. unfold is_ignored, passes_filter. cbn. apply andb_false_r. Qed.

Lemma filter_is_ignored_no_filter (l : list Obj) :
  filter (is_ignored None) l = [].
Proof.
  induction l as [|o l IH]; [reflexivity|].
  simpl. rewrite is_ignored_no_filter. exact IH.
Qed.

Lemma dict_update_Forall (P : FolderStats -> Prop) f k (d : StatsDict) :
  (forall v, P v -> P (f v)) -> P zero_stats ->
  Forall (fun kv => P (snd kv)) d ->
  Forall (fun kv => P (snd kv)) (dict_update f k d).
Proof.
  intros Hf H0. induction d as [|[k' v] d IH]; intros H; simpl.
  - constructor; [apply Hf, H0 | constructor].
  - inversion H as [|? ? Hv Hd]; subst. destruct (path_eqb k' k).
    + constructor; [apply Hf, Hv | exact Hd].
    + constructor; [exact Hv | now apply IH].
Qed.

Lemma scan_no_filter_ignored (l : list Obj) (st : ScanState) :
  Forall (fun kv => ignored (snd kv) = 0) (stats st) ->
  Forall (fun kv => ignored (snd kv) = 0) (stats (fold_left (scan_obj None) l st)).
Proof.
  apply (fold_scan_preserves
           (fun st => Forall (fun kv => ignored (snd kv) = 0) (stats st))).
  clear. intros st obj H. unfold scan_obj.
  destruct (endswith (Key obj) "/"); [exact H|].
  cbn [truthy_list andb stats].
  apply (dict_update_Forall (fun v => ignored v = 0)); auto.
  apply (dict_update_Forall (fun v => ignored v = 0)); auto.
Qed.

(** C10: [--extensions] with no value is the same run as no
    [--extensions] at all: the scan counts every object that is not a
    directory marker and ignores none, and the transfer downloads every
    such object. *)
Theorem empty_extensions_is_no_filter :
  (forall (World : Type) (mkdir : string -> World -> option World)
          (download_file : string -> string -> World -> option World)
          (resolve : PurePath -> World -> option PurePath)
          (args : Args) (listing1 listing2 : list Page) (w : World),
      run mkdir download_file resolve (with_extensions (Some []) args) listing1 listing2 w
      = run mkdir download_file resolve (with_extensions None args) listing1 listing2 w)
  /\ (forall (quiet : bool) (pages : list Page),
         let sc := scan_pass (normalise_extensions (Some [])) quiet pages in
         total_files sc = Z.of_nat (List.length (filter not_marker (entries pages)))
         /\ total_bytes sc = sum_sizes (filter not_marker (entries pages))
         /\ total_ignored sc = 0
         /\ Forall (fun kv => ignored (snd kv) = 0) (stats sc))
  /\ (forall (World : Type) (mkdir : string -> World -> option World)
             (download_file : string -> string -> World -> option World)
             (DEST_ROOT : PurePath) (quiet : bool) (total_bytes : Z)
             (pages : list Page) (io : IO World),
         (forall p w, mkdir p w <> None) ->
         (forall k p w, download_file k p w <> None) ->
         exists tf io',
           transfer_pass mkdir download_file (normalise_extensions (Some []))
             DEST_ROOT quiet total_bytes pages io = (Ok tf, io')
           /\ downloads (trace io')
              = (downloads (trace io)
                 ++ map (fun o => (Key o, local_path DEST_ROOT o))
                      (filter not_marker (entries pages)))%list
           /\ downloaded_files tf
              = Z.of_nat (List.length (filter not_marker (entries pages)))).
Proof.
  assert (Hfil : forall l, filter (is_counted None) l = filter not_marker l).
  { intros l. apply filter_ext. exact is_counted_no_filter. }
  split; [|split].
  - intros. reflexivity.
  - intros quiet pages sc. subst sc.
    change (normalise_extensions (Some [])) with (@None (list string)).
    rewrite scan_pass_entries.
    destruct (scan_fold_totals None (entries pages) (scan_init quiet)) as (Hf & Hb & Hi).
    rewrite Hf, Hb, Hi, Hfil.
    rewrite filter_is_ignored_no_filter. repeat split.
    apply scan_no_filter_ignored. constructor.
  - intros World mkdir download_file DEST_ROOT quiet tb pages io Hmk Hdl.
    change (normalise_extensions (Some [])) with (@None (list string)).
    unfold transfer_pass. rewrite transfer_pages_entries.
    destruct (transfer_loop_success mkdir download_file None DEST_ROOT (entries pages)
                (mkTransfer 0 0 (Some (tqdm (Some tb) quiet))) io Hmk Hdl)
      as (tf & io' & Hrun & Hd & Hf & _).
    exists tf, io'. rewrite Hfil in *. repeat split; auto.
Qed.

(** * Further properties of the script *)

(** ** Normalisation of the prefix and of the extensions *)

Lemma endswith_app_sep (p : string) : endswith (p ++ "/") "/" = true.
Proof.
  induction p as [|a r IH]; [reflexivity|].
  change (String a r ++ "/")%string with (String a (r ++ "/")).
  rewrite endswith_cons.
  destruct (r ++ "/")%string eqn:E; [destruct r; discriminate | exact IH].
Qed.

Lemma prefix_app (p q : string) : String.prefix p (p ++ q) = true.
Proof.
  induction p as [|a r IH].
  - now destruct q.
  - change (String a r ++ q)%string with (String a (r ++ q)).
    cbn [String.prefix]. destruct (ascii_dec a a); [exact IH | congruence].
Qed.

(** X1: the prefix sent to the listing always ends with [/]; a prefix
    that already does is left as it is, so normalising twice changes
    nothing, and the given prefix is always a prefix of the result. *)
Theorem normalise_prefix_terminated :
  forall p : string,
    endswith (normalise_prefix p) "/" = true
    /\ normalise_prefix (normalise_prefix p) = normalise_prefix p
    /\ startswith (normalise_prefix p) p = true
    /\ (if endswith p "/" then normalise_prefix p = p
        else normalise_prefix p = (p ++ "/")%string).
Proof.
  intros p.
  assert (H : endswith (normalise_prefix p) "/" = true).
  { unfold normalise_prefix. destruct (endswith p "/") eqn:E; auto.
    apply endswith_app_sep. }
  split; [exact H|]. split.
  - unfold normalise_prefix at 1. now rewrite H.
  - split.
    + unfold normalise_prefix, startswith. destruct (endswith p "/").
      * rewrite <- (prefix_app p ""). f_equal.
        clear. induction p as [|a r IH]; simpl; congruence.
      * apply prefix_app.
    + unfold normalise_prefix. now destruct (endswith p "/").
Qed.

Lemma lower_ascii_idem (c : ascii) : lower_ascii (lower_ascii c) = lower_ascii c.
Proof.
  destruct c as [[] [] [] [] [] [] [] []]; reflexivity.
Qed.

Lemma ascii_lower_idempotent : lower_idempotent ascii_lower.
Proof.
  intros s. induction s as [|a r IH]; simpl; [reflexivity|].
  now rewrite lower_ascii_idem, IH.
Qed.

Lemma ascii_lower_keeps_leading_dot : lower_keeps_leading_dot ascii_lower.
Proof. intros s. reflexivity. Qed.

Lemma ascii_lower_on_ascii : lower_on_ascii ascii_lower.
Proof. intros s _. reflexivity. Qed.

Lemma startswith_dot (s : string) :
  startswith s "." = true <-> exists r, s = String dot r.
Proof.
  unfold startswith. destruct s as [|a r].
  - split; [discriminate | intros [r H]; discriminate].
  - unfold String.prefix. destruct (ascii_dec "."%char a) as [Heq|Hne].
    + subst a. split; [intros _; now exists r | now destruct r].
    + split; [discriminate | intros [r' H]; injection H as H _].
      exfalso. apply Hne. symmetry. exact H.
Qed.

Lemma normalise_ext_shape (e : string) :
  lower_keeps_leading_dot lower ->
  exists r, normalise_ext e = String dot (lower r).
Proof.
  intros Hdot. unfold normalise_ext. destruct (startswith e ".") eqn:E.
  - apply startswith_dot in E as [r ->]. exists r. apply Hdot.
  - exists e. reflexivity.
Qed.

Lemma normalise_ext_idem (e : string) :
  lower_idempotent lower -> lower_keeps_leading_dot lower ->
  normalise_ext (normalise_ext e) = normalise_ext e.
Proof.
  intros Hidem Hdot. destruct (normalise_ext_shape e Hdot) as [r ->].
  unfold normalise_ext.
  assert (H : startswith (String dot (lower r)) "." = true)
    by (apply startswith_dot; now eexists).
  now rewrite H, Hdot, Hidem.
Qed.

(** X2: the filter kept by the script is absent exactly when
    [--extensions] is absent or has no value; otherwise it has one entry
    per given extension, each starting with a dot and unchanged by
    lower-casing, and normalising it again changes nothing.  This rests
    on two facts about [str.lower]: it is idempotent and it leaves a
    leading dot in place. *)
Theorem normalise_extensions_shape :
  lower_idempotent lower ->
  lower_keeps_leading_dot lower ->
  forall a : option (list string),
    match normalise_extensions a with
    | None => truthy_list a = false
    | Some exts =>
        exts <> []
        /\ (exists raw, a = Some raw /\ List.length exts = List.length raw)
        /\ Forall (fun e => startswith e "." = true /\ lower e = e) exts
        /\ normalise_extensions (Some exts) = Some exts
    end.
Proof.
  intros Hidem Hdot [[|x raw]|]; cbn; auto.
  assert (HF : forall l, Forall (fun e => startswith e "." = true /\ lower e = e)
                           (map normalise_ext l)).
  { induction l as [|y l IH]; constructor; auto.
    destruct (normalise_ext_shape y Hdot) as [r ->]. split.
    - apply startswith_dot. now eexists.
    - now rewrite Hdot, Hidem. }
  split; [discriminate|]. split.
  - exists (x :: raw). split; [reflexivity|]. cbn. now rewrite length_map.
  - split; [exact (HF (x :: raw))|].
    rewrite normalise_ext_idem by assumption. do 2 f_equal.
    rewrite map_map. apply map_ext. intros; now apply normalise_ext_idem.
Qed.

(** ** What the filter can never select *)

Lemma substring_all (s : string) : substring 0 (String.length s) s = s.
Proof. induction s as [|a r IH]; simpl; congruence. Qed.

Lemma rfind_slice (c : ascii) (s : string) (i : nat) :
  rfind c s = Some i ->
  exists r, slice_from i s = String c r
            /\ rfind c r = None
            /\ String.length s = (i + 1 + String.length r)%nat.
Proof.
  revert i. induction s as [|a t IH]; intros i; simpl; [discriminate|].
  destruct (rfind c t) as [j|] eqn:E.
  - intros H. injection H as <-.
    destruct (IH j eq_refl) as (r & Hs & Hr & Hl).
    exists r. split; [|split; [exact Hr | simpl; lia]].
    unfold slice_from in *. simpl. exact Hs.
  - destruct (Ascii.eqb a c) eqn:Ea; [|discriminate].
    intros H. injection H as <-. apply Ascii.eqb_eq in Ea. subst a.
    exists t. split; [|split; [exact E | simpl; lia]].
    unfold slice_from. simpl. now rewrite substring_all.
Qed.

(** A suffix is empty, or a dot followed by at least one character and
    no further dot. *)
Lemma suffix_shape (p : PurePath) :
  suffix p = "" \/ exists r, suffix p = String dot r /\ r <> "" /\ rfind dot r = None.
Proof.
  unfold suffix. destruct (rfind dot (name p)) as [i|] eqn:E; [|now left].
  destruct ((0 <? i) && (i <? String.length (name p) - 1))%nat eqn:Hb; [|now left].
  right. destruct (rfind_slice dot (name p) i E) as (r & Hs & Hr & Hl).
  exists r. split; [exact Hs|]. split; [|exact Hr].
  apply andb_true_iff in Hb as [_ Hb]. apply Nat.ltb_lt in Hb.
  intros ->. simpl in Hl. lia.
Qed.

Lemma lower_ascii_dot (a : ascii) : Ascii.eqb (lower_ascii a) dot = Ascii.eqb a dot.
Proof. destruct a as [[] [] [] [] [] [] [] []]; reflexivity. Qed.

Lemma rfind_none_cons (c a : ascii) (r : string) :
  rfind c (String a r) = None -> Ascii.eqb a c = false /\ rfind c r = None.
Proof.
  cbn. destruct (rfind c r); [discriminate|].
  destruct (Ascii.eqb a c); [discriminate | auto].
Qed.

Lemma rfind_dot_ascii_lower (s : string) : rfind dot (ascii_lower s) = rfind dot s.
Proof.
  induction s as [|a r IH]; simpl; [reflexivity|].
  now rewrite IH, lower_ascii_dot.
Qed.

Lemma ascii_lower_makes_no_dot : lower_makes_no_dot ascii_lower.
Proof. intros s H. now rewrite rfind_dot_ascii_lower. Qed.

(** The lower-cased empty string has no inner dot either. *)
Lemma lower_empty_no_inner_dot :
  lower_makes_no_dot lower -> has_inner_dot (lower "") = false.
Proof.
  intros Hno. pose proof (Hno "" eq_refl) as H.
  destruct (lower "") as [|a r]; [reflexivity|].
  apply rfind_none_cons in H as [_ H]. cbn [has_inner_dot]. now rewrite H.
Qed.

Lemma inner_dot_never_suffix (p : PurePath) (e : string) :
  lower_keeps_leading_dot lower -> lower_makes_no_dot lower ->
  has_inner_dot e = true -> String.eqb (lower (suffix p)) e = false.
Proof.
  intros Hdot Hno He. apply String.eqb_neq. intros Heq. subst e.
  destruct (suffix_shape p) as [Hs | (r & Hs & _ & Hr)]; rewrite Hs in He.
  - rewrite lower_empty_no_inner_dot in He by assumption. discriminate.
  - rewrite Hdot in He. cbn [has_inner_dot] in He.
    rewrite (Hno r Hr) in He. discriminate.
Qed.

Lemma scan_obj_ignored extensions st obj :
  endswith (Key obj) "/" = false ->
  passes_filter extensions obj = false ->
  scan_counters (scan_obj extensions st obj)
  = (dict_update (add_ignored 1) (folder_of obj) (stats st),
     total_files st, total_bytes st, total_ignored st + 1).
Proof.
  intros Hm Hp. unfold scan_obj. rewrite Hm, filter_condition, Hp. reflexivity.
Qed.

Lemma transfer_obj_skipped {World} mkdir download_file extensions DEST_ROOT
  (tf : TransferState) obj (io : IO World) :
  passes_filter extensions obj = false ->
  transfer_obj mkdir download_file extensions DEST_ROOT tf obj io = (Ok tf, io).
Proof.
  intros Hp. rewrite transfer_obj_step. unfold is_counted.
  now rewrite Hp, andb_false_r.
Qed.

(** X3: an extension with a dot after its first character, such as
    [.tar.gz], never selects anything: [Path.suffix] is only the last
    suffix of the name.  Under a filter made of such extensions every
    object that is not a directory marker is ignored by the scan and
    skipped by the transfer.  [str.lower] enters only through two
    facts: it leaves a leading dot in place and lower-cases no
    character into a dot. *)
Theorem inner_dot_extension_selects_nothing :
  lower_keeps_leading_dot lower ->
  lower_makes_no_dot lower ->
  forall (World : Type) (mkdir : string -> World -> option World)
         (download_file : string -> string -> World -> option World)
         (DEST_ROOT : PurePath) (exts : list string) (st : ScanState)
         (tf : TransferState) (io : IO World) (obj : Obj),
    exts <> [] ->
    Forall (fun e => has_inner_dot e = true) exts ->
    endswith (Key obj) "/" = false ->
    scan_counters (scan_obj (Some exts) st obj)
    = (dict_update (add_ignored 1) (folder_of obj) (stats st),
       total_files st, total_bytes st, total_ignored st + 1)
    /\ transfer_obj mkdir download_file (Some exts) DEST_ROOT tf obj io = (Ok tf, io).
Proof.
  intros Hdot Hno World mkdir download_file DEST_ROOT exts st tf io obj Hne Hall Hm.
  assert (Hp : passes_filter (Some exts) obj = false).
  { unfold passes_filter. destruct exts as [|e0 exts0]; [congruence|].
    cbn [truthy_list negb orb]. unfold str_in.
    apply not_true_is_false. intros H. apply existsb_exists in H as (e & Hin & He).
    rewrite Forall_forall in Hall.
    rewrite (inner_dot_never_suffix _ e Hdot Hno (Hall e Hin)) in He. discriminate. }
  split; [now apply scan_obj_ignored | now apply transfer_obj_skipped].
Qed.

Lemma rfind_none_component_suffix (seg : string) :
  rfind dot seg = None -> component_suffix seg = "" /\ seg <> ".".
Proof.
  intros H. unfold component_suffix. rewrite H. split; [reflexivity|].
  intros ->. discriminate.
Qed.

(** X4: when a filter is set, a file whose name contains no dot is
    always ignored by the scan and skipped by the transfer, whatever
    extensions were given: every normalised extension starts with a
    dot, and the suffix of such a name is empty.  [str.lower] enters
    only through two facts: it leaves a leading dot in place and
    lower-cases no character into a dot. *)
Theorem extensionless_file_ignored :
  lower_keeps_leading_dot lower ->
  lower_makes_no_dot lower ->
  forall (World : Type) (mkdir : string -> World -> option World)
         (download_file : string -> string -> World -> option World)
         (DEST_ROOT : PurePath) (raw : list string) (st : ScanState)
         (tf : TransferState) (io : IO World) (obj : Obj),
    raw <> [] ->
    endswith (Key obj) "/" = false ->
    rfind dot (final_segment (Key obj)) = None ->
    let extensions := normalise_extensions (Some raw) in
    scan_counters (scan_obj extensions st obj)
    = (dict_update (add_ignored 1) (folder_of obj) (stats st),
       total_files st, total_bytes st, total_ignored st + 1)
    /\ transfer_obj mkdir download_file extensions DEST_ROOT tf obj io = (Ok tf, io).
Proof.
  intros Hdot Hno World mkdir download_file DEST_ROOT raw st tf io obj Hne Hm Hr
    extensions.
  destruct (rfind_none_component_suffix _ Hr) as [Hs Hd].
  assert (Hp : passes_filter extensions obj = false).
  { unfold passes_filter, extensions.
    destruct raw as [|x raw0]; [congruence|].
    cbn [normalise_extensions truthy_list option_map negb orb].
    rewrite (suffix_Path (Key obj) Hm Hd), Hs. unfold str_in.
    apply not_true_is_false. intros H. apply existsb_exists in H as (e & Hin & He).
    apply in_map_iff in Hin as (y & <- & _).
    destruct (normalise_ext_shape y Hdot) as [r Hy]. rewrite Hy in He.
    apply String.eqb_eq in He. pose proof (Hno "" eq_refl) as Hq.
    rewrite He in Hq. apply rfind_none_cons in Hq as [Hq _]. discriminate. }
  split; [now apply scan_obj_ignored | now apply transfer_obj_skipped].
Qed.

(** ** What the scan has counted *)

Lemma counted_ignored_partition extensions (l : list Obj) :
  (List.length (filter (is_counted extensions) l)
   + List.length (filter (is_ignored extensions) l))%nat
  = List.length (filter not_marker l).
Proof.
  induction l as [|o l IH]; [reflexivity|].
  cbn [filter]. unfold is_counted, is_ignored, not_marker in *.
  destruct (is_marker o), (passes_filter extensions o); cbn [negb andb List.length];
    lia.
Qed.

(** X5: every listed object that is not a directory marker is either
    counted or ignored, never both and never neither: the two totals add
    up to the number of such objects. *)
Theorem scan_counts_or_ignores_each_object :
  forall (extensions : option (list string)) (quiet : bool) (pages : list Page),
    let sc := scan_pass extensions quiet pages in
    total_files sc + total_ignored sc
    = Z.of_nat (List.length (filter not_marker (entries pages)))
    /\ 0 <= total_files sc /\ 0 <= total_ignored sc.
Proof.
  intros extensions quiet pages sc. subst sc. rewrite scan_pass_entries.
  destruct (scan_fold_totals extensions (entries pages) (scan_init quiet))
    as (Hf & _ & Hi).
  rewrite Hf, Hi, <- (counted_ignored_partition extensions).
  cbn [scan_init total_files total_ignored]. lia.
Qed.

Lemma dict_update_compose f g k (d : StatsDict) :
  dict_update g k (dict_update f k d) = dict_update (fun v => g (f v)) k d.
Proof.
  induction d as [|[k' v] d IH]; simpl.
  - now rewrite path_eqb_refl.
  - destruct (path_eqb k' k) eqn:E; simpl; rewrite E; congruence.
Qed.

Lemma dict_update_Forall_created (P : FolderStats -> Prop) f k (d : StatsDict) :
  (forall v, P v -> P (f v)) -> P (f zero_stats) ->
  Forall (fun kv => P (snd kv)) d ->
  Forall (fun kv => P (snd kv)) (dict_update f k d).
Proof.
  intros Hf H0. induction d as [|[k' v] d IH]; intros H; simpl.
  - constructor; [exact H0 | constructor].
  - inversion H as [|? ? Hv Hd]; subst. destruct (path_eqb k' k).
    + constructor; [apply Hf, Hv | exact Hd].
    + constructor; [exact Hv | now apply IH].
Qed.

(** X6: no accumulator is created empty: every folder of the dictionary
    has non-negative [files] and [ignored] and at least one of them
    positive, so a directory marker alone never makes a folder appear. *)
Theorem scan_folders_not_empty :
  forall (extensions : option (list string)) (quiet : bool) (pages : list Page),
    Forall (fun kv => 0 <= files (snd kv) /\ 0 <= ignored (snd kv)
                      /\ 1 <= files (snd kv) + ignored (snd kv))
      (stats (scan_pass extensions quiet pages)).
Proof.
  intros extensions quiet pages. rewrite scan_pass_entries.
  apply (fold_scan_preserves
           (fun st => Forall (fun kv => 0 <= files (snd kv) /\ 0 <= ignored (snd kv)
                                        /\ 1 <= files (snd kv) + ignored (snd kv))
                        (stats st))); [|constructor].
  intros st obj H. unfold scan_obj.
  destruct (endswith (Key obj) "/"); [exact H|].
  destruct (truthy_list extensions && _); cbn [stats].
  - apply (dict_update_Forall_created
             (fun v => 0 <= files v /\ 0 <= ignored v /\ 1 <= files v + ignored v));
      auto; cbn; intros; lia.
  - rewrite dict_update_compose.
    apply (dict_update_Forall_created
             (fun v => 0 <= files v /\ 0 <= ignored v /\ 1 <= files v + ignored v));
      auto; cbn; intros; lia.
Qed.

(** X7: when no listed size is negative, no byte count is: every
    folder's [bytes] and the global [total_bytes] are non-negative. *)
Theorem scan_bytes_nonnegative :
  forall (extensions : option (list string)) (quiet : bool) (pages : list Page),
    Forall (fun o => 0 <= Size o) (entries pages) ->
    Forall (fun kv => 0 <= bytes (snd kv)) (stats (scan_pass extensions quiet pages))
    /\ 0 <= total_bytes (scan_pass extensions quiet pages).
Proof.
  intros extensions quiet pages Hs. rewrite scan_pass_entries.
  assert (H0 : Forall (fun kv => 0 <= bytes (snd kv)) (stats (scan_init quiet))
               /\ 0 <= total_bytes (scan_init quiet)) by (split; [constructor | reflexivity]).
  revert H0. generalize (scan_init quiet).
  induction Hs as [|o l Ho Hl IH]; intros st H; [exact H|].
  cbn [fold_left]. apply IH. destruct H as [Hd Ht]. unfold scan_obj.
  destruct (endswith (Key o) "/"); [now split|].
  destruct (truthy_list extensions && _); cbn [stats total_bytes].
  - split; [|exact Ht].
    apply (dict_update_Forall_created (fun v => 0 <= bytes v)); auto; cbn; intros; lia.
  - split; [|lia]. rewrite dict_update_compose.
    apply (dict_update_Forall_created (fun v => 0 <= bytes v)); auto; cbn; intros; lia.
Qed.

Lemma scan_obj_marker extensions st obj :
  is_marker obj = true -> scan_obj extensions st obj = st.
Proof. unfold is_marker, scan_obj. now intros ->. Qed.

Lemma fold_scan_getitem extensions (f : PurePath) (l : list Obj) (st : ScanState) :
  getitem (stats (fold_left (scan_obj extensions) l st)) f
  = mkStats
      (files (getitem (stats st) f)
       + Z.of_nat (List.length
                     (filter (fun o => is_counted extensions o && in_folder f o) l)))
      (bytes (getitem (stats st) f)
       + sum_sizes (filter (fun o => is_counted extensions o && in_folder f o) l))
      (ignored (getitem (stats st) f)
       + Z.of_nat (List.length
                     (filter (fun o => is_ignored extensions o && in_folder f o) l))).
Proof.
  revert st. induction l as [|o l IH]; intros st.
  - cbn. destruct (getitem (stats st) f). cbn. f_equal; lia.
  - cbn [fold_left filter]. rewrite IH. clear IH.
    unfold is_counted, is_ignored, in_folder.
    destruct (is_marker o) eqn:Em.
    + rewrite scan_obj_marker by assumption. reflexivity.
    + rewrite scan_obj_getitem by exact Em.
      destruct (path_eqb f (folder_of o)); unfold entry_update;
        destruct (passes_filter extensions o);
        cbn [negb andb List.length sum_sizes fold_right files bytes ignored
               add_files add_bytes add_ignored];
        rewrite ?Nat2Z.inj_succ; unfold sum_sizes; f_equal; lia.
Qed.

(** X8: after the scan, the accumulator of a folder holds exactly the
    objects grouped under it: [files] is the number of counted objects
    whose parent path is that folder, [bytes] the sum of their sizes and
    [ignored] the number of ignored ones (all zero for a folder that was
    never seen). *)
Theorem scan_folder_accumulator :
  forall (extensions : option (list string)) (quiet : bool) (pages : list Page)
         (f : PurePath),
    getitem (stats (scan_pass extensions quiet pages)) f
    = mkStats
        (Z.of_nat (List.length
                     (filter (fun o => is_counted extensions o && in_folder f o)
                        (entries pages))))
        (sum_sizes (filter (fun o => is_counted extensions o && in_folder f o)
                      (entries pages)))
        (Z.of_nat (List.length
                     (filter (fun o => is_ignored extensions o && in_folder f o)
                        (entries pages)))).
Proof.
  intros. rewrite scan_pass_entries, fold_scan_getitem. reflexivity.
Qed.

Lemma fold_scan_lookup extensions (f : PurePath) (l : list Obj) (st : ScanState) :
  (exists v, dict_lookup f (stats (fold_left (scan_obj extensions) l st)) = Some v)
  <-> (exists v, dict_lookup f (stats st) = Some v)
      \/ (exists o, In o l /\ is_marker o = false /\ in_folder f o = true).
Proof.
  revert st. induction l as [|o l IH]; intros st; cbn [fold_left].
  - split; [now left | intros [H | (o & [] & _)]; exact H].
  - rewrite IH. clear IH. destruct (is_marker o) eqn:Em.
    + rewrite scan_obj_marker by assumption. split.
      * intros [H | (o' & Hin & H)]; [now left | right; exists o'; split; [now right | exact H]].
      * intros [H | (o' & [<- | Hin] & Hm' & Hf)]; [now left | congruence |].
        right. exists o'. auto.
    + rewrite scan_obj_lookup by exact Em. unfold in_folder.
      destruct (path_eqb f (folder_of o)) eqn:Ef.
      * split; intros _.
        -- right. exists o. split; [now left | auto].
        -- left. eexists. reflexivity.
      * split.
        -- intros [H | (o' & Hin & H)]; [now left |].
           right. exists o'. split; [now right | exact H].
        -- intros [H | (o' & [<- | Hin] & Hm' & Hf)]; [now left | congruence |].
           right. exists o'. auto.
Qed.

(** X9: a folder has an entry in the dictionary exactly when the
    listing holds an object, not a directory marker, whose parent path
    is that folder. *)
Theorem scan_folder_present_iff :
  forall (extensions : option (list string)) (quiet : bool) (pages : list Page)
         (f : PurePath),
    (exists v, dict_lookup f (stats (scan_pass extensions quiet pages)) = Some v)
    <-> (exists o, In o (entries pages) /\ is_marker o = false /\ in_folder f o = true).
Proof.
  intros. rewrite scan_pass_entries, fold_scan_lookup. cbn [scan_init stats dict_lookup].
  split; [intros [[v H] | H]; [discriminate | exact H] | now right].
Qed.

(** ** Independence of paging and of listing order *)

Lemma filter_perm {A} (p : A -> bool) (l l' : list A) :
  Permutation l l' -> Permutation (filter p l) (filter p l').
Proof.
  induction 1 as [|x l l' _ IH|x y l|l l' l'' _ IH1 _ IH2]; cbn [filter].
  - constructor.
  - destruct (p x); [now constructor | exact IH].
  - destruct (p x), (p y); try reflexivity. apply perm_swap.
  - now transitivity (filter p l').
Qed.

Lemma sum_sizes_perm (l l' : list Obj) :
  Permutation l l' -> sum_sizes l = sum_sizes l'.
Proof.
  unfold sum_sizes.
  induction 1 as [|x l l' _ IH|x y l|l l' l'' _ IH1 _ IH2]; cbn [fold_right]; lia.
Qed.

(** X10: the counters do not depend on the order in which the objects
    are listed: two listings with the same objects in any order give the
    same three totals and the same accumulator for every folder. *)
Theorem scan_independent_of_listing_order :
  forall (extensions : option (list string)) (quiet : bool)
         (pages pages' : list Page),
    Permutation (entries pages) (entries pages') ->
    let sc := scan_pass extensions quiet pages in
    let sc' := scan_pass extensions quiet pages' in
    total_files sc = total_files sc'
    /\ total_bytes sc = total_bytes sc'
    /\ total_ignored sc = total_ignored sc'
    /\ forall f, getitem (stats sc) f = getitem (stats sc') f.
Proof.
  intros extensions quiet pages pages' Hp sc sc'. subst sc sc'.
  assert (Hl : forall p, List.length (filter p (entries pages))
                         = List.length (filter p (entries pages')))
    by (intros p; apply Permutation_length, filter_perm, Hp).
  assert (Hs : forall p, sum_sizes (filter p (entries pages))
                         = sum_sizes (filter p (entries pages')))
    by (intros p; apply sum_sizes_perm, filter_perm, Hp).
  rewrite !scan_pass_entries.
  destruct (scan_fold_totals extensions (entries pages) (scan_init quiet))
    as (Hf & Hb & Hi).
  destruct (scan_fold_totals extensions (entries pages') (scan_init quiet))
    as (Hf' & Hb' & Hi').
  rewrite Hf, Hb, Hi, Hf', Hb', Hi', !Hl, Hs.
  repeat split. intros f. rewrite !fold_scan_getitem, !Hl, Hs. reflexivity.
Qed.

(** X11: the way the listing is cut into pages does not matter: two
    runs whose listings hold the same objects in the same order, in
    whatever pages (empty pages and pages without [Contents] included),
    end in the same state with the same calls and the same report. *)
Theorem run_independent_of_paging :
  forall (World : Type) (mkdir : string -> World -> option World)
         (download_file : string -> string -> World -> option World)
         (resolve : PurePath -> World -> option PurePath)
         (args : Args) (listing1 listing2 listing1' listing2' : list Page) (w : World),
    entries listing1 = entries listing1' ->
    entries listing2 = entries listing2' ->
    run mkdir download_file resolve args listing1 listing2 w
    = run mkdir download_file resolve args listing1' listing2' w.
Proof.
  intros World mkdir download_file resolve args l1 l2 l1' l2' w H1 H2.
  destruct (check_usage args) as [DEST_ROOT|] eqn:Hu.
  - rewrite !(run_after_check mkdir download_file resolve args _ _ w _ Hu). cbv zeta.
    rewrite !scan_pass_entries, H1, H2. reflexivity.
  - unfold run, main. rewrite Hu. reflexivity.
Qed.

(** ** Progress bars *)

Lemma scan_bar_invariant extensions quiet (l : list Obj) :
  let st := fold_left (scan_obj extensions) l (scan_init quiet) in
  disable (analyse_progression_bar st) = quiet
  /\ n (analyse_progression_bar st) = (if quiet then 0 else total_files st).
Proof.
  cbv zeta.
  apply (fold_scan_preserves
           (fun st => disable (analyse_progression_bar st) = quiet
                      /\ n (analyse_progression_bar st)
                         = (if quiet then 0 else total_files st))).
  - intros st obj [Hd Hn]. unfold scan_obj.
    destruct (endswith (Key obj) "/"); [now split|].
    destruct (truthy_list extensions && _);
      cbn [analyse_progression_bar total_files]; [now split|].
    unfold tqdm_update. rewrite Hd. destruct quiet; [now split|].
    cbn [disable n]. split; [reflexivity | lia].
  - split; [reflexivity | now destruct quiet].
Qed.

(** X12: the bar of the scan advances once per counted object and
    never for an ignored object or a directory marker: at the end it
    shows [total_files], or stays at 0 when [--quiet] disables it. *)
Theorem scan_bar_shows_total_files :
  forall (extensions : option (list string)) (quiet : bool) (pages : list Page),
    let sc := scan_pass extensions quiet pages in
    disable (analyse_progression_bar sc) = quiet
    /\ n (analyse_progression_bar sc) = (if quiet then 0 else total_files sc).
Proof.
  intros extensions quiet pages sc. subst sc. rewrite scan_pass_entries.
  apply scan_bar_invariant.
Qed.

(** ** What the transfer has attempted *)

Section TransferAttempts.

Context {World : Type}.
Variable mkdir : string -> World -> option World.
Variable download_file : string -> string -> World -> option World.
Variable extensions : option (list string).
Variable DEST_ROOT : PurePath.

Lemma downloads_snoc_mkdir (tr : list Event) (dir : string) :
  downloads (tr ++ [EvMkdir dir]) = downloads tr.
Proof. rewrite downloads_app. cbn. apply app_nil_r. Qed.

Lemma downloads_snoc_pair (tr : list Event) (dir key path : string) :
  downloads (tr ++ [EvMkdir dir; EvDownload key path])
  = (downloads tr ++ [(key, path)])%list.
Proof. rewrite downloads_app. reflexivity. Qed.

Lemma transfer_loop_attempts (l : list Obj) (st : TransferState) (io : IO World) :
  let C := filter (is_counted extensions) l in
  let res := for_each (transfer_obj mkdir download_file extensions DEST_ROOT) l st io in
  exists k : nat,
    (k <= List.length C)%nat
    /\ downloads (trace (snd res))
       = (downloads (trace io) ++ map (download_target DEST_ROOT) (firstn k C))%list
    /\ (forall tf, fst res = Ok tf ->
                   k = List.length C
                   /\ downloaded_files tf = downloaded_files st + Z.of_nat (List.length C)
                   /\ downloaded_bytes tf = downloaded_bytes st + sum_sizes C).
Proof.
  cbv zeta. revert st io. induction l as [|o l IH]; intros st io.
  - exists 0%nat. cbn. rewrite app_nil_r.
    split; [lia|]. split; [reflexivity|].
    intros tf H. injection H as <-. repeat split; lia.
  - cbn [for_each filter]. unfold bind. rewrite transfer_obj_step.
    destruct (is_counted extensions o); [|apply IH].
    cbv zeta. destruct (mkdir _ (world io)) as [w1|].
    + destruct (download_file _ _ w1) as [w2|].
      * destruct (IH (transfer_done st o)
                    (mkIO w2 (trace io ++ [EvMkdir (local_dir DEST_ROOT o);
                                           EvDownload (Key o) (local_path DEST_ROOT o)])))
          as (k & Hk & Hd & Hok).
        exists (S k). split; [cbn; lia|]. split.
        -- rewrite Hd. cbn [trace]. rewrite downloads_snoc_pair, <- app_assoc.
           reflexivity.
        -- intros tf Htf. destruct (Hok tf Htf) as (Hk' & Hf & Hb).
           cbn [transfer_done downloaded_files downloaded_bytes] in Hf, Hb.
           cbn [List.length sum_sizes fold_right]. rewrite Nat2Z.inj_succ.
           unfold sum_sizes in *. repeat split; lia.
      * exists 1%nat. cbn [snd fst trace]. split; [cbn; lia|]. split.
        -- rewrite downloads_snoc_pair. reflexivity.
        -- intros tf H. discriminate.
    + exists 0%nat. cbn [snd fst trace]. split; [lia|]. split.
      * rewrite downloads_snoc_mkdir. cbn. now rewrite app_nil_r.
      * intros tf H. discriminate.
Qed.

Lemma transfer_loop_invariant (I : TransferState -> Prop) (l : list Obj) :
  (forall st o, I st -> I (transfer_done st o)) ->
  forall st (io : IO World) st' io',
    for_each (transfer_obj mkdir download_file extensions DEST_ROOT) l st io
    = (Ok st', io') ->
    I st -> I st'.
Proof.
  intros Hstep. induction l as [|o l IH]; intros st io st' io'.
  - cbn. intros H. injection H as <- _. auto.
  - cbn [for_each]. unfold bind. rewrite transfer_obj_step.
    destruct (is_counted extensions o); [|apply IH].
    cbv zeta. destruct (mkdir _ (world io)) as [w1|]; [|discriminate].
    destruct (download_file _ _ w1) as [w2|]; [|discriminate].
    intros H Hi. apply (IH _ _ _ _ H). now apply Hstep.
Qed.

End TransferAttempts.

(** X13: whatever fails, the transfer calls [download_file] only for
    counted objects of its listing, in listing order and without
    skipping one: the downloads attempted are an initial segment of the
    counted objects.  When the pass completes, the segment is the whole
    list and the two counters are its length and its size sum. *)
Theorem transfer_downloads_initial_segment :
  forall (World : Type) (mkdir : string -> World -> option World)
         (download_file : string -> string -> World -> option World)
         (extensions : option (list string)) (DEST_ROOT : PurePath)
         (quiet : bool) (total_bytes : Z) (pages : list Page) (io : IO World),
    let C := filter (is_counted extensions) (entries pages) in
    let res := transfer_pass mkdir download_file extensions DEST_ROOT quiet
                 total_bytes pages io in
    exists k : nat,
      (k <= List.length C)%nat
      /\ downloads (trace (snd res))
         = (downloads (trace io) ++ map (download_target DEST_ROOT) (firstn k C))%list
      /\ (forall tf, fst res = Ok tf ->
                     k = List.length C
                     /\ downloaded_files tf = Z.of_nat (List.length C)
                     /\ downloaded_bytes tf = sum_sizes C).
Proof.
  intros World mkdir download_file extensions DEST_ROOT quiet tb pages io C res.
  subst C res. unfold transfer_pass. rewrite transfer_pages_entries.
  apply (transfer_loop_attempts mkdir download_file extensions DEST_ROOT
           (entries pages) (mkTransfer 0 0 (Some (tqdm (Some tb) quiet))) io).
Qed.

(** X14: in a run that ends normally with [--download], the bar of the
    transfer has the scan's [total_bytes] as its total and stands at
    [downloaded_bytes] (at 0 when [--quiet] disables it); without
    [--download] no bar is built. *)
Theorem transfer_bar_shows_downloaded_bytes :
  forall (World : Type) (mkdir : string -> World -> option World)
         (download_file : string -> string -> World -> option World)
         (resolve : PurePath -> World -> option PurePath)
         (args : Args) (listing1 listing2 : list Page) (w : World)
         (sc : ScanState) (tf : TransferState) (io' : IO World),
    run mkdir download_file resolve args listing1 listing2 w = (Ok (sc, tf), io') ->
    if arg_download args then
      exists bar,
        progress_bar tf = Some bar
        /\ disable bar = arg_quiet args
        /\ total bar = Some (total_bytes sc)
        /\ n bar = (if arg_quiet args then 0 else downloaded_bytes tf)
    else progress_bar tf = None.
Proof.
  intros World mkdir download_file resolve args listing1 listing2 w sc tf io' Hrun.
  destruct (check_usage args) as [DEST_ROOT|] eqn:Hu.
  - rewrite (run_after_check mkdir download_file resolve args listing1 listing2 w _ Hu) in Hrun.
    cbv zeta in Hrun. destruct (arg_download args).
    + destruct (for_each _ (entries listing2) _ _) as [[tf0|e] io1] eqn:E;
        [|discriminate].
      destruct DEST_ROOT as [d|]; [|discriminate].
      destruct (resolve d (world io1)); [|discriminate].
      injection Hrun as <- <- _.
      set (tb := total_bytes (scan_pass (normalise_extensions (arg_extensions args))
                                (arg_quiet args) listing1)) in *.
      apply (transfer_loop_invariant mkdir download_file _ _
               (fun st => exists bar,
                    progress_bar st = Some bar
                    /\ disable bar = arg_quiet args
                    /\ total bar = Some tb
                    /\ n bar = (if arg_quiet args then 0 else downloaded_bytes st))
               _) in E; [exact E | |].
      * intros st o (bar & Hb & Hd & Ht & Hn).
        cbn [transfer_done progress_bar downloaded_bytes]. rewrite Hb. cbn [option_map].
        eexists. split; [reflexivity|].
        unfold tqdm_update, tqdm_set_postfix. cbn [disable total n postfix].
        rewrite Hd. destruct (arg_quiet args); cbn [disable total n];
          repeat split; auto; lia.
      * eexists. split; [reflexivity|]. cbn. repeat split. now destruct (arg_quiet args).
    + injection Hrun as _ <- _. reflexivity.
  - unfold run, main in Hrun. rewrite Hu in Hrun. discriminate.
Qed.

(** ** Where a download lands *)

(** X15: a key that does not start with [/] is written under
    [DEST_ROOT]: the local path has the root and the components of
    [DEST_ROOT] followed by the components of the key.  A key that
    starts with [/] replaces [DEST_ROOT] altogether: the local path is
    the key itself. *)
Theorem download_destination :
  forall (DEST_ROOT : PurePath) (key : string),
    if startswith key "/"
    then truediv DEST_ROOT key = Path key
    else root (truediv DEST_ROOT key) = root DEST_ROOT
         /\ parts (truediv DEST_ROOT key)
            = (parts DEST_ROOT ++ parts (Path key))%list.
Proof.
  intros DEST_ROOT key. rewrite truediv_cases.
  destruct (startswith key "/"); [reflexivity | split; reflexivity].
Qed.

(** ** What is printed *)





Lemma dict_lookup_member (d : StatsDict) (k : PurePath) (v : FolderStats) :
  NoDup (dict_keys d) -> In (k, v) d -> dict_lookup k d = Some v.
Proof.
  induction d as [|[k0 v0] d IH]; [intros _ []|].
  cbn [dict_keys map fst]. intros Hnd [Heq | Hin]; cbn [dict_lookup].
  - injection Heq as -> ->. now rewrite path_eqb_refl.
  - inversion Hnd as [|? ? Hnotin Hnd']; subst.
    destruct (path_eqb k0 k) eqn:E.
    + exfalso. apply Hnotin. unfold path_eqb in E. apply parts_eqb_eq in E.
      rewrite E. apply (in_map (fun kv => parts (fst kv)) d (k, v) Hin).
    + now apply IH.
Qed.

Lemma folder_lines_filter (d : StatsDict) (fs : list PurePath) :
  filter is_folder_line (flat_map (folder_lines d) fs)
  = map (fun f => folder_line (f, getitem d f)) fs.
Proof.
  induction fs as [|f fs IH]; [reflexivity|].
  cbn [flat_map folder_lines app filter is_folder_line map]. f_equal. exact IH.
Qed.

Lemma scan_pass_NoDup extensions quiet pages :
  NoDup (dict_keys (stats (scan_pass extensions quiet pages))).
Proof.
  rewrite scan_pass_entries.
  apply (fold_scan_preserves (fun st => NoDup (dict_keys (stats st)))).
  - intros; now apply scan_obj_NoDup.
  - constructor.
Qed.

Lemma detail_lines_perm extensions quiet pages PREFIX download DEST_ROOT tf :
  Permutation (map folder_line (stats (scan_pass extensions quiet pages)))
    (filter is_folder_line
       (report_lines PREFIX true download DEST_ROOT
          (scan_pass extensions quiet pages) tf)).
Proof.
  set (sc := scan_pass extensions quiet pages).
  unfold report_lines. rewrite !filter_app, folder_lines_filter.
  cbn [filter is_folder_line app].
  assert (Hd : filter is_folder_line
                 (if download
                  then [LDownloaded (downloaded_files tf =? 1) (downloaded_files tf)
                          (format_gb (downloaded_bytes tf))
                          (match DEST_ROOT with Some d => str d | None => "" end)]
                  else []) = []) by now destruct download.
  rewrite Hd, app_nil_r.
  assert (Hm : map folder_line (stats sc)
               = map (fun f => folder_line (f, getitem (stats sc) f))
                   (map fst (stats sc))).
  { rewrite map_map. apply map_ext_in. intros [k v] Hin. cbn [fst].
    unfold getitem.
    now rewrite (dict_lookup_member (stats sc) k v
                   (scan_pass_NoDup extensions quiet pages) Hin). }
  rewrite Hm. apply Permutation_map. apply sorted_perm.
Qed.

(** X17: with [--details] the report shows every folder of the
    dictionary exactly once, each with its own three counters: the
    folder lines are the entries of the dictionary, reordered. *)
Theorem detail_lines_are_the_dictionary :
  forall (extensions : option (list string)) (quiet : bool) (pages : list Page)
         (PREFIX : string) (download : bool) (DEST_ROOT : option PurePath)
         (tf : TransferState),
    let sc := scan_pass extensions quiet pages in
    Permutation (map folder_line (stats sc))
      (filter is_folder_line (report_lines PREFIX true download DEST_ROOT sc tf)).
Proof.
  intros extensions quiet pages PREFIX download DEST_ROOT tf sc.
  apply detail_lines_perm.
Qed.

(** ** Folder names *)

Lemma split_no_sep (s : string) :
  Forall (fun x => rfind sep x = None) (split sep s).
Proof.
  induction s as [|a r IH]; cbn [split]; [repeat constructor|].
  destruct (Ascii.eqb a sep) eqn:Ea; [constructor; [reflexivity | exact IH]|].
  destruct (split sep r) as [|h t]; [repeat constructor; cbn; now rewrite Ea|].
  inversion IH as [|? ? Hh Ht]; subst. constructor; [|exact Ht].
  cbn. now rewrite Hh, Ea.
Qed.

Lemma split_sep_free (x : string) : rfind sep x = None -> split sep x = [x].
Proof.
  induction x as [|a r IH]; [reflexivity|]. intros H.
  apply rfind_none_cons in H as [Ha Hr]. cbn [split]. now rewrite Ha, IH.
Qed.

Lemma split_app_sep_free (x s : string) :
  rfind sep x = None ->
  split sep (x ++ String sep s) = x :: split sep s.
Proof.
  induction x as [|a r IH]; intros H.
  - cbn. reflexivity.
  - apply rfind_none_cons in H as [Ha Hr].
    change (String a r ++ String sep s)%string with (String a (r ++ String sep s)).
    cbn [split]. now rewrite Ha, IH.
Qed.

Lemma split_join (comps : list string) :
  Forall (fun x => rfind sep x = None) comps -> comps <> [] ->
  split sep (join sep comps) = comps.
Proof.
  induction comps as [|x comps IH]; [congruence|]. intros H _.
  inversion H as [|? ? Hx Hr]; subst. destruct comps as [|y comps].
  - cbn. now apply split_sep_free.
  - change (join sep (x :: y :: comps)) with (x ++ String sep (join sep (y :: comps)))%string.
    rewrite split_app_sep_free by exact Hx. f_equal. apply IH; [exact Hr | discriminate].
Qed.

Lemma component_ok_no_sep (comps : list string) :
  Forall component_ok comps -> Forall (fun x => rfind sep x = None) comps.
Proof. apply Forall_impl. now intros x (_ & _ & H). Qed.

Lemma filter_keep_part (comps : list string) :
  Forall component_ok comps -> filter keep_part comps = comps.
Proof.
  induction 1 as [|x l (H1 & H2 & _) _ IH]; [reflexivity|].
  cbn [filter]. now rewrite keep_part_true, IH.
Qed.

(** A joined list of components is empty only for the empty list, and
    never starts with the separator. *)
Lemma join_head (comps : list string) :
  Forall component_ok comps ->
  match join sep comps with
  | EmptyString => comps = []
  | String a _ => Ascii.eqb a sep = false
  end.
Proof.
  intros H. destruct comps as [|x comps]; [reflexivity|].
  inversion H as [|? ? (Hne & _ & Hs) _]; subst.
  destruct x as [|a r]; [congruence|].
  apply rfind_none_cons in Hs as [Ha _].
  destruct comps; exact Ha.
Qed.

Lemma parse_joined (comps : list string) :
  Forall component_ok comps ->
  filter keep_part (split sep (join sep comps)) = comps.
Proof.
  intros H. destruct comps as [|x comps]; [reflexivity|].
  rewrite split_join; [now apply filter_keep_part | now apply component_ok_no_sep
                      | discriminate].
Qed.

Lemma lstrip_joined (comps : list string) :
  Forall component_ok comps -> lstrip sep (join sep comps) = join sep comps.
Proof.
  intros H. pose proof (join_head comps H) as Hh.
  destruct (join sep comps) as [|a r]; [reflexivity|]. cbn. now rewrite Hh.
Qed.

Lemma Path_well_formed (key : string) : well_formed (Path key).
Proof.
  unfold Path, parse_parts. destruct key as [|a r].
  - exists []. split; [constructor | left; split; reflexivity].
  - destruct (splitroot (String a r)) as [rt rel] eqn:E.
    exists (filter keep_part (split sep rel)). split.
    + apply Forall_forall. intros x Hx. apply filter_In in Hx as [Hin Hk].
      pose proof (split_no_sep rel) as Hs. rewrite Forall_forall in Hs.
      unfold keep_part in Hk. apply andb_true_iff in Hk as [H1 H2].
      apply negb_true_iff in H1, H2. apply String.eqb_neq in H1, H2.
      repeat split; auto.
    + unfold splitroot in E. destruct (Ascii.eqb a sep).
      * destruct (_ =? 2)%nat; injection E as <- _; cbn; auto.
      * injection E as <- _. cbn. auto.
Qed.

Lemma removelast_Forall {A} (P : A -> Prop) (l : list A) :
  Forall P l -> Forall P (removelast l).
Proof.
  induction 1 as [|x l Hx Hl IH]; [constructor|].
  cbn. destruct l; [constructor | constructor; [exact Hx | exact IH]].
Qed.

Lemma parent_well_formed (p : PurePath) : well_formed p -> well_formed (parent p).
Proof.
  intros (comps & Hc & H). unfold parent.
  destruct H as [[Hr Hp] | [[Hr Hp] | [Hr Hp]]]; rewrite Hr, Hp.
  - rewrite andb_false_r. exists (removelast comps).
    split; [now apply removelast_Forall | left; split; reflexivity].
  - destruct comps as [|x comps].
    + cbn. exists []. split; [constructor | right; left; split; assumption].
    + cbn [List.length Nat.eqb andb].
      exists (removelast (x :: comps)).
      split; [now apply removelast_Forall | right; left; split; reflexivity].
  - destruct comps as [|x comps].
    + cbn. exists []. split; [constructor | right; right; split; assumption].
    + cbn [List.length Nat.eqb andb].
      exists (removelast (x :: comps)).
      split; [now apply removelast_Forall | right; right; split; reflexivity].
Qed.

Lemma Path_str (p : PurePath) : well_formed p -> Path (str p) = p.
Proof.
  intros (comps & Hc & H). destruct p as [rt ps]. cbn [root parts] in H.
  pose proof (join_head comps Hc) as Hh.
  pose proof (parse_joined comps Hc) as Hj.
  pose proof (lstrip_joined comps Hc) as Hl.
  unfold str. cbn [root parts].
  destruct H as [[-> ->] | [[-> ->] | [-> ->]]]; cbn [String.eqb Ascii.eqb tl].
  - destruct (join sep comps) as [|a r] eqn:Ej.
    + subst comps. reflexivity.
    + cbn [String.eqb]. unfold Path, parse_parts, splitroot. rewrite Hh, Hj. reflexivity.
  - change ("/" ++ join sep comps)%string with (String sep (join sep comps)).
    cbn [String.eqb]. unfold Path, parse_parts, splitroot.
    cbn [Ascii.eqb Bool.eqb]. change (Ascii.eqb sep sep) with true. cbv iota.
    change (lstrip sep (String sep (join sep comps))) with (lstrip sep (join sep comps)).
    rewrite Hl. cbn [String.length].
    replace (S (String.length (join sep comps)) - String.length (join sep comps))%nat
      with 1%nat by lia.
    cbn [Nat.eqb]. rewrite Hj. reflexivity.
  - change ("//" ++ join sep comps)%string with (String sep (String sep (join sep comps))).
    cbn [String.eqb]. unfold Path, parse_parts, splitroot.
    change (Ascii.eqb sep sep) with true. cbv iota.
    change (lstrip sep (String sep (String sep (join sep comps))))
      with (lstrip sep (join sep comps)).
    rewrite Hl. cbn [String.length].
    replace (S (S (String.length (join sep comps))) - String.length (join sep comps))%nat
      with 2%nat by lia.
    cbn [Nat.eqb]. rewrite Hj. reflexivity.
Qed.




(** X18: the name printed for a folder identifies it: parsing the
    printed name gives the folder back, so two objects are grouped under
    the same accumulator exactly when their folders print alike. *)
Theorem folder_name_identifies_folder :
  forall o1 o2 : Obj,
    Path (str (folder_of o1)) = folder_of o1
    /\ (str (folder_of o1) = str (folder_of o2)
        <-> path_eqb (folder_of o1) (folder_of o2) = true).
Proof.
  assert (Hrt : forall o, Path (str (folder_of o)) = folder_of o).
  { intros o. apply Path_str, parent_well_formed, Path_well_formed. }
  intros o1 o2. split; [apply Hrt|]. split.
  - intros H. rewrite <- (Hrt o1), <- (Hrt o2), H. apply path_eqb_refl.
  - intros H. unfold path_eqb in H. apply parts_eqb_eq in H.
    pose proof (parent_well_formed _ (Path_well_formed (Key o1))) as (c1 & F1 & H1).
    pose proof (parent_well_formed _ (Path_well_formed (Key o2))) as (c2 & F2 & H2).
    fold (folder_of o1) in H1. fold (folder_of o2) in H2.
    assert (Hbad : forall r c, Forall component_ok (String sep r :: c) -> False).
    { intros r c Hf. inversion Hf as [|? ? (_ & _ & Hs) _]; subst.
      apply rfind_none_cons in Hs as [Hs _]. discriminate. }
    assert (Hroot : root (folder_of o1) = root (folder_of o2)).
    { destruct H1 as [[R1 P1] | [[R1 P1] | [R1 P1]]];
        destruct H2 as [[R2 P2] | [[R2 P2] | [R2 P2]]];
        rewrite R1, R2; try reflexivity; exfalso;
        rewrite P1, P2 in H; try discriminate;
        try (rewrite H in F1; exact (Hbad _ _ F1));
        try (rewrite <- H in F2; exact (Hbad _ _ F2)). }
    destruct (folder_of o1), (folder_of o2). cbn in *. congruence.
Qed.

(** ** Order of the calls of the transfer *)

(** X19: the transfer makes its calls in pairs: each [download_file]
    call directly follows the [mkdir] of the parent of its local path,
    object after object in listing order; the only call that can stand
    alone is a last [mkdir], the one that raised. *)
Theorem transfer_calls_in_pairs :
  forall (World : Type) (mkdir : string -> World -> option World)
         (download_file : string -> string -> World -> option World)
         (extensions : option (list string)) (DEST_ROOT : PurePath)
         (quiet : bool) (total_bytes : Z) (pages : list Page) (io : IO World),
    let C := filter (is_counted extensions) (entries pages) in
    let res := transfer_pass mkdir download_file extensions DEST_ROOT quiet
                 total_bytes pages io in
    exists (k : nat) (last_call : list Event),
      trace (snd res)
      = (trace io ++ flat_map (attempt_events DEST_ROOT) (firstn k C) ++ last_call)%list
      /\ (last_call = []
          \/ exists o, nth_error C k = Some o
                       /\ last_call = [EvMkdir (local_dir DEST_ROOT o)]
                       /\ fst res = Raise (MkdirError (local_dir DEST_ROOT o))).
Proof.
  intros World mkdir download_file extensions DEST_ROOT quiet tb pages io C res.
  subst C res. unfold transfer_pass. rewrite transfer_pages_entries.
  generalize (mkTransfer 0 0 (Some (tqdm (Some tb) quiet))). revert io.
  induction (entries pages) as [|o l IH]; intros io st.
  - exists 0%nat, []. cbn. rewrite app_nil_r. auto.
  - cbn [for_each filter]. unfold bind. rewrite transfer_obj_step.
    destruct (is_counted extensions o); [|apply IH].
    cbv zeta. destruct (mkdir _ (world io)) as [w1|].
    + destruct (download_file _ _ w1) as [w2|].
      * destruct (IH (mkIO w2 (trace io ++ attempt_events DEST_ROOT o))
                    (transfer_done st o)) as (k & lc & Ht & Hl).
        exists (S k), lc. split; [|exact Hl].
        unfold attempt_events in Ht at 1. rewrite Ht. cbn [trace firstn flat_map].
        rewrite <- !app_assoc. reflexivity.
      * exists 1%nat, []. cbn [snd fst trace firstn flat_map].
        rewrite !app_nil_r. auto.
    + exists 0%nat, [EvMkdir (local_dir DEST_ROOT o)].
      cbn [snd fst trace firstn flat_map app nth_error]. split; [reflexivity|].
      right. exists o. auto.
Qed.

(** ** Equivalent ways of giving an extension *)

Lemma startswith_dot_eqb (a : ascii) (r : string) :
  startswith (String a r) "." = Ascii.eqb a dot.
Proof.
  destruct (Ascii.eqb a dot) eqn:E.
  - apply startswith_dot. apply Ascii.eqb_eq in E. subst a. now exists r.
  - apply not_true_is_false. intros H. apply startswith_dot in H as [r' H].
    injection H as -> _. now rewrite Ascii.eqb_refl in E.
Qed.

Lemma ascii_lower_makes_no_leading_dot : lower_makes_no_leading_dot ascii_lower.
Proof.
  intros [|a r] H; [reflexivity|]. cbn [ascii_lower].
  rewrite startswith_dot_eqb in *. now rewrite lower_ascii_dot.
Qed.

(** X20: extensions are taken without regard to case and with or
    without their leading dot: [e], its lower-case form and, when [e]
    has no leading dot, [.e] all give the same entry of the filter, and
    so do two extensions with the same lower-case form, both with or
    both without a leading dot.  This rests on three facts about
    [str.lower]: it is idempotent, it leaves a leading dot in place and
    it puts none where there was none. *)
Theorem extension_case_and_dot_optional :
  lower_idempotent lower ->
  lower_keeps_leading_dot lower ->
  lower_makes_no_leading_dot lower ->
  forall e : string,
    normalise_ext (lower e) = normalise_ext e
    /\ (if startswith e "." then True
        else normalise_ext ("." ++ e) = normalise_ext e)
    /\ (forall e' : string,
          lower e = lower e' -> startswith e "." = startswith e' "." ->
          normalise_ext e = normalise_ext e').
Proof.
  intros Hidem Hdot Hno e. split; [|split].
  - unfold normalise_ext. rewrite Hidem.
    destruct (startswith e ".") eqn:E.
    + apply startswith_dot in E as [r ->]. rewrite Hdot.
      now rewrite startswith_dot_eqb, Ascii.eqb_refl.
    + now rewrite (Hno e E).
  - destruct (startswith e ".") eqn:E; [exact I|].
    unfold normalise_ext. rewrite E.
    change ("." ++ e)%string with (String dot e).
    rewrite startswith_dot_eqb. cbn. apply Hdot.
  - intros e' Hl Hs. unfold normalise_ext. now rewrite Hl, Hs.
Qed.

(** ** The detail lines against the totals *)

Lemma sum_counts_perm (l l' : list Line) :
  Permutation l l' -> sum_counts l = sum_counts l'.
Proof.
  unfold sum_counts.
  induction 1 as [|x l l' _ IH|x y l|l l' l'' _ IH1 _ IH2]; cbn [fold_right].
  - reflexivity.
  - now rewrite IH.
  - unfold add_counts. cbn [fst snd]. f_equal; lia.
  - congruence.
Qed.

Lemma sum_counts_dict (d : StatsDict) :
  sum_counts (map folder_line d) = (dict_sum files d, dict_sum ignored d).
Proof.
  induction d as [|[k v] d IH]; [reflexivity|].
  cbn [map sum_counts fold_right]. fold (sum_counts (map folder_line d)).
  rewrite IH. reflexivity.
Qed.

Lemma sum_counts_filter (ls : list Line) :
  sum_counts (filter is_folder_line ls) = sum_counts ls.
Proof.
  induction ls as [|l ls IH]; [reflexivity|].
  cbn [filter]. destruct l; cbn [is_folder_line sum_counts fold_right];
    fold (sum_counts ls); fold (sum_counts (filter is_folder_line ls));
    rewrite <- IH; try reflexivity;
    destruct (sum_counts (filter is_folder_line ls)) as [a b]; reflexivity.
Qed.

(** X21: the counts of the detailed report are consistent: the [files]
    and the [ignored] shown on the folder lines add up to those of the
    TOTAL line.  (The sizes are rounded to two decimals line by line
    and need not add up.) *)
Theorem detail_lines_add_up_to_totals :
  forall (extensions : option (list string)) (quiet : bool) (pages : list Page)
         (PREFIX : string) (download : bool) (DEST_ROOT : option PurePath)
         (tf : TransferState),
    let sc := scan_pass extensions quiet pages in
    let lines := report_lines PREFIX true download DEST_ROOT sc tf in
    In (LTotal (total_files sc) (format_gb (total_bytes sc)) (total_ignored sc)) lines
    /\ sum_counts lines = (total_files sc, total_ignored sc).
Proof.
  intros extensions quiet pages PREFIX download DEST_ROOT tf sc lines.
  split.
  - unfold lines, report_lines. apply in_or_app. right.
    apply in_or_app. right. left. reflexivity.
  - rewrite <- sum_counts_filter. unfold lines, sc.
    rewrite <- (sum_counts_perm _ _
                  (detail_lines_perm extensions quiet pages PREFIX download DEST_ROOT tf)).
    rewrite sum_counts_dict.
    assert (H : sum_invariant (scan_pass extensions quiet pages)).
    { rewrite scan_pass_entries. apply fold_scan_preserves.
      - intros; now apply scan_obj_sum_invariant.
      - apply sum_invariant_init. }
    destruct H as (Hf & _ & Hi). now rewrite Hf, Hi.
Qed.

End Script.


Arguments Ok {A} a.
Arguments Raise {A} e.
Arguments mkIO {World} world trace.
Arguments world {World} i.
Arguments trace {World} i.
Arguments run lower {World} mkdir download_file resolve args listing1 listing2 w.
Arguments main lower {World} mkdir download_file resolve args listing1 listing2 _.
Arguments transfer_pass lower {World} mkdir download_file extensions DEST_ROOT quiet total_bytes pages _.
Arguments transfer_obj lower {World} mkdir download_file extensions DEST_ROOT st obj _.
Arguments report {World} resolve PREFIX details download DEST_ROOT sc tf _.
Arguments for_each {World A S} body l s _.

(** * The script on concrete inputs *)

(** The examples below run the script on ASCII keys and extensions,
    where [str.lower] is [ascii_lower]. *)

(** ** Paths *)

Example Path_ex1 : Path "x/y/f1" = mkPath "" ["x"; "y"; "f1"].
Proof. reflexivity. Qed.

Example Path_ex2 : str (parent (Path "data//a/./f1.nc")) = "data/a".
Proof. reflexivity. Qed.

Example Path_ex3 : Path "///a/b/" = mkPath "/" ["/"; "a"; "b"].
Proof. reflexivity. Qed.

Example Path_ex4 : Path "//a" = mkPath "//" ["//"; "a"].
Proof. reflexivity. Qed.

Example suffix_ex1 : suffix (Path "a/b/data.tar.GZ") = ".GZ".
Proof. reflexivity. Qed.

Example suffix_ex2 : suffix (Path "a/b/.bashrc") = "".
Proof. reflexivity. Qed.

Example suffix_ex3 : suffix (Path "a/b/file.") = "".
Proof. reflexivity. Qed.

Example truediv_ex1 : str (truediv (Path "out/") "data/a/f1.nc") = "out/data/a/f1.nc".
Proof. reflexivity. Qed.

Example truediv_ex2 : str (truediv (Path "out") "/etc/x") = "/etc/x".
Proof. reflexivity. Qed.

Example endswith_ex : endswith "data/b/" "/" = true /\ endswith "" "/" = false.
Proof. split; reflexivity. Qed.

Example format_gb_ex :
  format_gb 0 = "0.00" /\ format_gb 5368709 = "0.00" /\ format_gb 5368710 = "0.01"
  /\ format_gb 1073741824 = "1.00" /\ format_gb 1610612736 = "1.50"
  /\ format_gb 123456789012 = "114.98".
Proof. repeat split; reflexivity. Qed.

(** ** The scan *)

(** Example 7 of the specification's testable properties. *)
Example scan_end_to_end :
  let st := scan_pass ascii_lower (Some [".nc"]) true
              [mkPage (Some [mkObj "data/a/f1.nc" 100; mkObj "data/a/f2.tar" 200]);
               mkPage None;
               mkPage (Some [mkObj "data/b/" 0; mkObj "data/b/f3.nc" 50])] in
  map (fun kv => (str (fst kv), snd kv)) (stats st)
    = [("data/a", mkStats 1 100 1); ("data/b", mkStats 1 50 0)]
  /\ (total_files st, total_bytes st, total_ignored st) = (2, 150, 1).
Proof. split; reflexivity. Qed.

Lemma marker_changes_nothing_witness :
  let obj := mkObj "data/b/" 7 in
  let sc := mkScan [(Path "data/a", mkStats 1 100 1)] 1 100 1 (tqdm None false) in
  let tf := mkTransfer 1 100 (Some (tqdm (Some 100) false)) in
  let io := mkIO tt [EvClient] in
  scan_obj ascii_lower (Some [".nc"]) sc obj = sc
  /\ transfer_obj ascii_lower (fun _ _ => None) (fun _ _ _ => None) (Some [".nc"])
       (Path "out") tf obj io = (Ok tf, io).
Proof.
  intros obj sc tf io.
  apply (marker_changes_nothing ascii_lower unit (fun _ _ => None) (fun _ _ _ => None)
           (Some [".nc"]) (Path "out") sc tf io obj).
  reflexivity.
Defined.

Lemma suffix_filter_test_witness :
  suffix (Path "a/b/data.NC") = ".NC"
  /\ suffix (Path "a/b.nc/.") = ".nc"
  /\ scan_counters (scan_obj ascii_lower (Some [".nc"]) (scan_init true)
                      (mkObj "a/b/data.NC" 5))
     = ([(Path "a/b", mkStats 1 5 0)], 1, 5, 0)
  /\ scan_counters (scan_obj ascii_lower (Some [".nc"]) (scan_init true)
                      (mkObj "a/b.nc/." 5))
     = ([(Path "a", mkStats 1 5 0)], 1, 5, 0)
  /\ scan_counters
       (scan_pass ascii_lower (normalise_extensions ascii_lower (Some [".nc"])) true
          [mkPage (Some [mkObj "a/b/data.tar" 5])])
     = ([(Path "a/b", mkStats 0 0 1)], 0, 0, 1).
Proof.
  destruct (suffix_filter_test ascii_lower) as (S & H & L).
  assert (H1 : [".nc"] <> @nil string) by discriminate.
  pose proof (H [".nc"] (scan_init true) (mkObj "a/b/data.NC" 5) H1 eq_refl) as Hb.
  pose proof (H [".nc"] (scan_init true) (mkObj "a/b.nc/." 5) H1 eq_refl) as Kb.
  destruct (L ascii_lower_on_ascii) as [_ Lb].
  split; [etransitivity; [exact (S "a/b/data.NC") | reflexivity]|].
  split; [etransitivity; [exact (S "a/b.nc/.") | reflexivity]|].
  split; [etransitivity; [exact Hb | reflexivity]|].
  split; [etransitivity; [exact Kb | reflexivity]|].
  exact Lb.
Defined.

(** The suffix as the specification words it fails on a dot-file: the
    last dot of [.nc] is its first character, so [Path.suffix] is empty
    and the object is ignored although its final segment, from the last
    dot on, is in the filter. *)
Lemma suffix_dotfile_counterexample :
  spec_suffix "a/b/.nc" = ".nc"
  /\ str_in (ascii_lower (spec_suffix "a/b/.nc")) [".nc"] = true
  /\ suffix (Path "a/b/.nc") = ""
  /\ suffix (Path "a/b/.nc") <> spec_suffix "a/b/.nc"
  /\ spec_suffix "a/b.nc/." = "."
  /\ suffix (Path "a/b.nc/.") = ".nc"
  /\ scan_counters
       (scan_pass ascii_lower (normalise_extensions ascii_lower (Some [".nc"])) true
          [mkPage (Some [mkObj "a/b/.nc" 5])])
     = ([(Path "a/b", mkStats 0 0 1)], 0, 0, 1).
Proof.
  repeat split; try reflexivity. vm_compute. discriminate.
Qed.


(** The example of the specification: [x/y/f1] and [x/y/f2] share the
    accumulator [x/y], [x/z/f3] has its own. *)
Example grouping_example :
  map (fun kv => (str (fst kv), snd kv))
    (stats (scan_pass ascii_lower None true
              [mkPage (Some [mkObj "x/y/f1" 10; mkObj "x/y/f2" 20;
                             mkObj "x/z/f3" 30])]))
  = [("x/y", mkStats 2 30 0); ("x/z", mkStats 1 30 0)].
Proof. reflexivity. Qed.

(** ** The usage check *)

(** Read on mere presence, the rule fails for an empty [--dest]: with
    [--download --dest ""] both options are present and the script still
    raises. *)
Lemma usage_empty_dest_counterexample :
  ~ usage_by_presence (mkArgs "data" None false false true (Some "")).
Proof.
  intros [_ H]. apply H; reflexivity.
Qed.

(** ** The transfer *)



Lemma transfer_aborts_on_failure_witness :
  exists e io2,
    run ascii_lower always_mkdir (download_except "data/b/f3.nc") always_resolve
      sample_args sample_listing
      (sample_listing ++ [mkPage (Some [mkObj "data/c/f4.nc" 7])]) tt
    = (Raise e, io2)
    /\ e = DownloadError "data/b/f3.nc"
    /\ printed (trace io2) = []
    /\ downloads (trace io2)
       = [("data/a/f1.nc", "out/data/a/f1.nc"); ("data/b/f3.nc", "out/data/b/f3.nc")].
Proof.
  destruct (transfer_aborts_on_failure ascii_lower unit always_mkdir
              (download_except "data/b/f3.nc") always_resolve sample_args
              sample_listing
              (sample_listing ++ [mkPage (Some [mkObj "data/c/f4.nc" 7])]) tt
              (Path "out")
              [mkObj "data/a/f1.nc" 100; mkObj "data/a/f2.tar" 200; mkObj "data/b/" 0]
              [mkObj "data/c/f4.nc" 7] (mkObj "data/b/f3.nc" 50)
              (mkTransfer 1 100 (Some (mkTqdm false (Some 150) 100 (Some 1))))
              (mkIO tt [EvClient; EvPaginate "data/"; EvPaginate "data/";
                        EvMkdir "out/data/a";
                        EvDownload "data/a/f1.nc" "out/data/a/f1.nc"]))
    as (e & io2 & Hrun & Hp & Hcase).
  - reflexivity.
  - reflexivity.
  - reflexivity.
  - reflexivity.
  - reflexivity.
  - right. exists tt. split; reflexivity.
  - exists e, io2. split; [exact Hrun|].
    destruct Hcase as [[He Ht] | [He Ht]].
    + exfalso. pose proof Hrun as Hx. vm_compute in Hx.
      injection Hx as Hx _. rewrite He in Hx. discriminate.
    + split; [exact He|]. split; [exact Hp|]. rewrite Ht. reflexivity.
Defined.

Lemma empty_extensions_is_no_filter_witness :
  exists tf io',
    transfer_pass ascii_lower always_mkdir always_download
      (normalise_extensions ascii_lower (Some []))
      (Path "out") true 350 sample_listing (mkIO tt [])
    = (Ok tf, io')
    /\ downloads (trace io')
       = [("data/a/f1.nc", "out/data/a/f1.nc"); ("data/a/f2.tar", "out/data/a/f2.tar");
          ("data/b/f3.nc", "out/data/b/f3.nc")]
    /\ downloaded_files tf = 3.
Proof.
  destruct (proj2 (proj2 (empty_extensions_is_no_filter ascii_lower)) unit always_mkdir
              always_download (Path "out") true 350 sample_listing (mkIO tt []))
    as (tf & io' & Hrun & Hd & Hf).
  - intros p w. discriminate.
  - intros k p w. discriminate.
  - exists tf, io'. split; [exact Hrun|].
    split; [rewrite Hd | rewrite Hf]; reflexivity.
Defined.

(** ** The report *)

(** String order and component order differ below [/]: [-] sorts before
    [/] as a character, yet [p/a/b] is printed before [p/a-b]. *)
Lemma report_order_counterexample :
  map str (report_folders
             (stats (scan_pass ascii_lower None true
                       [mkPage (Some [mkObj "p/a-b/g" 1; mkObj "p/a/b/f" 1])])))
  = ["p/a/b"; "p/a-b"]
  /\ ~ ascending_by_string
         (map str (report_folders
                     (stats (scan_pass ascii_lower None true
                               [mkPage (Some [mkObj "p/a-b/g" 1; mkObj "p/a/b/f" 1])])))).
Proof.
  assert (E : map str (report_folders
                         (stats (scan_pass ascii_lower None true
                                   [mkPage (Some [mkObj "p/a-b/g" 1; mkObj "p/a/b/f" 1])])))
              = ["p/a/b"; "p/a-b"]) by reflexivity.
  split; [exact E|]. rewrite E. intros H.
  inversion H as [|? ? _ Hhd]; subst.
  inversion Hhd as [|? ? Hle]; subst. vm_compute in Hle. discriminate.
Qed.

(** The report of the sample run, sizes as printed. *)
Example report_of_sample_run :
  printed (trace (snd (run ascii_lower always_mkdir always_download always_resolve
                         sample_args sample_listing sample_listing tt)))
  = [LHeader "data/";
     LFolder "data/a" 1 "0.00" 1; LBlank;
     LFolder "data/b" 1 "0.00" 0; LBlank;
     LTotal 2 "0.00" 1;
     LDownloaded false 2 "0.00" "out"].
Proof. reflexivity. Qed.

(** When the destination cannot be resolved the run raises after the
    header, the details and the totals are printed, and after every
    file is written. *)
Example report_partial_when_resolve_raises :
  let r := run ascii_lower always_mkdir always_download never_resolve
             sample_args sample_listing sample_listing tt in
  fst r = Raise (ResolveError "out")
  /\ printed (trace (snd r))
     = [LHeader "data/";
        LFolder "data/a" 1 "0.00" 1; LBlank;
        LFolder "data/b" 1 "0.00" 0; LBlank;
        LTotal 2 "0.00" 1]
  /\ downloads (trace (snd r))
     = [("data/a/f1.nc", "out/data/a/f1.nc"); ("data/b/f3.nc", "out/data/b/f3.nc")].
Proof. repeat split; reflexivity. Qed.

(** Sizes are printed in GiB with two decimals, so the sizes of the
    folder lines need not add up to the size of the total line. *)
Example printed_sizes_do_not_add_up :
  filter (fun l => match l with LFolder _ _ _ _ | LTotal _ _ _ => true | _ => false end)
    (report_lines "p/" true false None
       (scan_pass ascii_lower None true
          [mkPage (Some [mkObj "p/a/f" 5368709; mkObj "p/b/g" 5368709])])
       (mkTransfer 0 0 None))
  = [LFolder "p/a" 1 "0.00" 0; LFolder "p/b" 1 "0.00" 0; LTotal 2 "0.01" 0].
Proof. reflexivity. Qed.

(** ** Extensions *)

Lemma normalise_extensions_shape_witness :
  normalise_extensions ascii_lower (Some ["NC"; ".Tar"]) = Some [".nc"; ".tar"]
  /\ normalise_extensions ascii_lower (Some [".nc"; ".tar"]) = Some [".nc"; ".tar"].
Proof.
  pose proof (normalise_extensions_shape ascii_lower ascii_lower_idempotent
                ascii_lower_keeps_leading_dot (Some ["NC"; ".Tar"])) as H.
  assert (E : normalise_extensions ascii_lower (Some ["NC"; ".Tar"])
              = Some [".nc"; ".tar"]) by reflexivity.
  rewrite E in H. destruct H as (_ & _ & _ & H).
  split; [exact E | exact H].
Defined.

Lemma extension_case_and_dot_optional_witness :
  normalise_ext ascii_lower "nc" = normalise_ext ascii_lower "NC"
  /\ normalise_ext ascii_lower ".NC" = normalise_ext ascii_lower "NC"
  /\ normalise_ext ascii_lower "NC" = normalise_ext ascii_lower "Nc"
  /\ normalise_ext ascii_lower "NC" = ".nc".
Proof.
  destruct (extension_case_and_dot_optional ascii_lower ascii_lower_idempotent
              ascii_lower_keeps_leading_dot ascii_lower_makes_no_leading_dot "NC")
    as (H & K & L).
  split; [exact H|]. split; [exact K|].
  split; [apply L; reflexivity | reflexivity].
Defined.

Lemma inner_dot_extension_selects_nothing_witness :
  scan_counters (scan_obj ascii_lower (Some [".tar.gz"]) (scan_init true)
                   (mkObj "a/x.tar.gz" 9))
  = ([(Path "a", mkStats 0 0 1)], 0, 0, 1)
  /\ transfer_obj ascii_lower always_mkdir always_download (Some [".tar.gz"])
       (Path "out") (mkTransfer 0 0 None) (mkObj "a/x.tar.gz" 9) (mkIO tt [])
     = (Ok (mkTransfer 0 0 None), mkIO tt []).
Proof.
  destruct (inner_dot_extension_selects_nothing ascii_lower
              ascii_lower_keeps_leading_dot ascii_lower_makes_no_dot
              unit always_mkdir always_download
              (Path "out") [".tar.gz"] (scan_init true) (mkTransfer 0 0 None)
              (mkIO tt []) (mkObj "a/x.tar.gz" 9)) as [H1 H2].
  - discriminate.
  - repeat constructor.
  - reflexivity.
  - split; [etransitivity; [exact H1 | reflexivity] | exact H2].
Defined.

Lemma extensionless_file_ignored_witness :
  scan_counters (scan_obj ascii_lower (normalise_extensions ascii_lower (Some ["nc"; "TAR"]))
                   (scan_init true) (mkObj "data/README" 12))
  = ([(Path "data", mkStats 0 0 1)], 0, 0, 1).
Proof.
  destruct (extensionless_file_ignored ascii_lower
              ascii_lower_keeps_leading_dot ascii_lower_makes_no_dot
              unit always_mkdir always_download
              (Path "out") ["nc"; "TAR"] (scan_init true) (mkTransfer 0 0 None)
              (mkIO tt []) (mkObj "data/README" 12)) as [H1 _].
  - discriminate.
  - reflexivity.
  - reflexivity.
  - etransitivity; [exact H1 | reflexivity].
Defined.

(** ** The counters *)

Lemma scan_bytes_nonnegative_witness :
  Forall (fun kv => 0 <= bytes (snd kv))
    (stats (scan_pass ascii_lower (Some [".nc"]) true sample_listing))
  /\ 0 <= total_bytes (scan_pass ascii_lower (Some [".nc"]) true sample_listing).
Proof.
  apply (scan_bytes_nonnegative ascii_lower (Some [".nc"]) true sample_listing).
  repeat constructor; cbn; lia.
Defined.

Lemma scan_independent_of_listing_order_witness :
  total_files (scan_pass ascii_lower (Some [".nc"]) true sample_listing)
  = total_files (scan_pass ascii_lower (Some [".nc"]) true
                   [mkPage (Some [mkObj "data/b/f3.nc" 50; mkObj "data/b/" 0;
                                  mkObj "data/a/f2.tar" 200; mkObj "data/a/f1.nc" 100])]).
Proof.
  apply (scan_independent_of_listing_order ascii_lower (Some [".nc"]) true sample_listing
           [mkPage (Some [mkObj "data/b/f3.nc" 50; mkObj "data/b/" 0;
                          mkObj "data/a/f2.tar" 200; mkObj "data/a/f1.nc" 100])]).
  cbn. apply (Permutation_rev [mkObj "data/a/f1.nc" 100; mkObj "data/a/f2.tar" 200;
                               mkObj "data/b/" 0; mkObj "data/b/f3.nc" 50]).
Defined.

Lemma run_independent_of_paging_witness :
  run ascii_lower always_mkdir always_download always_resolve sample_args
    sample_listing sample_listing tt
  = run ascii_lower always_mkdir always_download always_resolve sample_args
      [mkPage None;
       mkPage (Some [mkObj "data/a/f1.nc" 100]);
       mkPage (Some []);
       mkPage (Some [mkObj "data/a/f2.tar" 200; mkObj "data/b/" 0;
                     mkObj "data/b/f3.nc" 50])]
      sample_listing tt.
Proof.
  apply (run_independent_of_paging ascii_lower unit always_mkdir always_download
           always_resolve sample_args);
    reflexivity.
Defined.

Lemma transfer_bar_shows_downloaded_bytes_witness :
  exists sc tf io' bar,
    run ascii_lower always_mkdir always_download always_resolve sample_args
      sample_listing sample_listing tt
    = (Ok (sc, tf), io')
    /\ progress_bar tf = Some bar
    /\ total bar = Some 150 /\ n bar = 150.
Proof.
  destruct (run ascii_lower always_mkdir always_download always_resolve sample_args
              sample_listing sample_listing tt) as [[[sc tf]|e] io'] eqn:E.
  - pose proof (transfer_bar_shows_downloaded_bytes ascii_lower unit always_mkdir
                  always_download always_resolve
                  sample_args sample_listing sample_listing tt sc tf io' E) as H.
    cbn [sample_args arg_download arg_quiet] in H.
    destruct H as (bar & Hb & _ & Ht & Hn).
    vm_compute in E. injection E as <- <- _.
    do 3 eexists. exists bar.
    split; [reflexivity|]. split; [exact Hb|]. split; [exact Ht | exact Hn].
  - vm_compute in E. discriminate.
Defined.
